(** * comfydv: the ComfyUI nodes FormatString, RandomChoice, CircuitBreaker
    and ModelUnloader

    A shallow embedding of [src/comfydv/format_string.py],
    [src/comfydv/random_choice.py], [src/comfydv/circuit_breaker.py] and
    [src/comfydv/model_unload.py].

    Python [str] values are [string]s over 7-bit ASCII (the character
    classes [\w], [\s] and [str.strip] are given on code points 0..127, a
    character above 127 is in none of them); a [dict] is an association list
    in insertion order; the class attribute [node_configs] and the files on
    disk are finite maps; an exception is a constructor of [exn], and code
    that can raise returns a [result]. *)

From Stdlib Require Import ZArith Ascii String List DecimalString.
From stdpp Require Import base decidable option list gmap strings.

(** ** Python values *)

Module Py.

(** Values a node receives on its sockets and widgets. [PObj] is a host
    object (a tensor, a module, a function) carried with the text [str()]
    gives for it. *)
Inductive pyval : Type :=
| PNone
| PBool (b : bool)
| PInt (z : Z)
| PStr (s : string)
| PObj (repr : string).

(** Containers built by the nodes: tuples, lists and dicts with string keys. *)
#[warnings="-register-all"]
Inductive pydata : Type :=
| DVal (v : pyval)
| DTuple (l : list pydata)
| DList (l : list pydata)
| DDict (kvs : list (string * pydata)).

(** Exceptions: all of them subclasses of [Exception]. *)
Inductive exn : Type :=
| InterruptProcessingException
| KeyError (key : string)
| IndexError
| FileNotFoundError
| TemplateSyntaxError (msg : string)
| OtherError (name : string)
| MarkupError (msg : string)
| OSError (msg : string).

Inductive result (A : Type) : Type :=
| Return (a : A)
| Raise (e : exn).
Arguments Return {A} a.
Arguments Raise {A} e.

(** [bool(v)] *)
Definition truthy (v : pyval) : bool :=
  match v with
  | PNone => false
  | PBool b => b
  | PInt z => negb (Z.eqb z 0)
  | PStr s => negb (String.eqb s "")
  | PObj _ => true
  end.

(** [str(v)] *)
Definition py_str (v : pyval) : string :=
  match v with
  | PNone => "None"
  | PBool true => "True"
  | PBool false => "False"
  | PInt z => NilZero.string_of_int (Z.to_int z)
  | PStr s => s
  | PObj repr => repr
  end.

(** *** dicts in insertion order *)

Definition dict (A : Type) : Type := list (string * A).

(** [d.get(k)] *)
Fixpoint dict_get {A} (d : dict A) (k : string) : option A :=
  match d with
  | [] => None
  | (k', v) :: d' => if String.eqb k' k then Some v else dict_get d' k
  end.

(** [d[k] = v]: an existing key keeps its place, a new one goes last. *)
Fixpoint dict_set {A} (d : dict A) (k : string) (v : A) : dict A :=
  match d with
  | [] => [(k, v)]
  | (k', v') :: d' =>
      if String.eqb k' k then (k', v) :: d' else (k', v') :: dict_set d' k v
  end.

(** [{**a, **b}] *)
Definition dict_merge {A} (a b : dict A) : dict A :=
  fold_left (fun acc kv => dict_set acc (fst kv) (snd kv)) b a.

Definition dict_keys {A} (d : dict A) : list string := map fst d.

(** [kwargs.get(k, "")] *)
Definition get_or_empty (kwargs : dict pyval) (k : string) : pyval :=
  match dict_get kwargs k with
  | Some v => v
  | None => PStr ""
  end.

End Py.
Import Py.

(** ** Characters and [str] methods *)

Module Str.

Definition code (c : ascii) : nat := nat_of_ascii c.

Definition between (lo hi : nat) (c : ascii) : bool :=
  Nat.leb lo (code c) && Nat.leb (code c) hi.

(** [\w]: letters, digits and the underscore *)
Definition is_word (c : ascii) : bool :=
  between 97 122 c || between 65 90 c || between 48 57 c || Nat.eqb (code c) 95.

(** [\s] and the characters [str.strip()] removes: TAB LF VT FF CR, FS GS RS
    US and the space *)
Definition is_space (c : ascii) : bool :=
  between 9 13 c || between 28 32 c.

Definition is_char (a c : ascii) : bool := Ascii.eqb a c.

Fixpoint all_chars (p : ascii -> bool) (s : string) : bool :=
  match s with
  | EmptyString => true
  | String c s' => p c && all_chars p s'
  end.

(** [s.split(sep)[0]] for a separator of one character *)
Fixpoint split_head (sep : ascii) (s : string) : string :=
  match s with
  | EmptyString => EmptyString
  | String c s' => if is_char sep c then EmptyString else String c (split_head sep s')
  end.

Fixpoint lstrip (s : string) : string :=
  match s with
  | EmptyString => EmptyString
  | String c s' => if is_space c then lstrip s' else s
  end.

Fixpoint rstrip (s : string) : string :=
  match s with
  | EmptyString => EmptyString
  | String c s' =>
      match rstrip s' with
      | EmptyString => if is_space c then EmptyString else String c EmptyString
      | t => String c t
      end
  end.

(** [s.strip()] *)
Definition strip (s : string) : string := rstrip (lstrip s).

(** [s.startswith(p)] *)
Definition startswith (s p : string) : bool := String.prefix p s.

(** [s[:n]] *)
Fixpoint str_take (n : nat) (s : string) : string :=
  match n, s with
  | S n', String c s' => String c (str_take n' s')
  | _, _ => EmptyString
  end.

(** [p in s] on strings *)
Fixpoint contains (s p : string) : bool :=
  String.prefix p s ||
  match s with
  | EmptyString => false
  | String _ s' => contains s' p
  end.

End Str.
Import Str.

(** ** The [print] of rich

    [format_string.py], [random_choice.py] and [model_unload.py] import
    [print] from rich, which reads square brackets in a text as markup and
    raises [MarkupError] on a closing tag that closes nothing. What it does
    with a text is given by the host of each node, as the message of the
    error if it raises one; the models call it where the text holds a value
    from outside the code, and take a print of a text with no bracket to
    return. *)

Module Rich.

(** The characters up to the first closing bracket, when no opening one
    comes before it. *)
Fixpoint tag_body (s : string) : option string :=
  match s with
  | EmptyString => None
  | String c s' =>
      if is_char "]" c then Some EmptyString
      else if is_char "[" c then None
      else option_map (String c) (tag_body s')
  end.

(** The first closing tag [[/...]] from position [pos] on: where it starts
    and what stands between [[/] and the closing bracket. *)
Fixpoint closing_tag_from (pos : nat) (s : string) : option (nat * string) :=
  match s with
  | EmptyString => None
  | String c s' =>
      let here :=
        if is_char "[" c then
          match s' with
          | String c' s'' => if is_char "/" c' then tag_body s'' else None
          | EmptyString => None
          end
        else None in
      match here with
      | Some body => Some (pos, body)
      | None => closing_tag_from (S pos) s'
      end
  end.

(** The message of the error rich raises on a text that opens no tag,
    escapes none and closes one. *)
Definition closing_tag_error (text : string) : option string :=
  match closing_tag_from 0 text with
  | Some (pos, body) =>
      let position := NilZero.string_of_uint (Nat.to_uint pos) in
      Some (if String.eqb (strip body) ""
            then "closing tag '[/]' at position " +:+ position
                 +:+ " has nothing to close"
            else "closing tag '[/" +:+ body +:+ "]' at position " +:+ position
                 +:+ " doesn't match any open tag")
  | None => None
  end.

End Rich.
Import Rich.

(** ** The fragment of [re] the patterns of [_extract_keys] use

    Every repetition in the three patterns is over a character class, so
    the syntax has repetition of classes only. The matcher backtracks in
    the order of [re]: a greedy repetition tries the longest run first, a
    lazy one the shortest, an optional part is tried before it is skipped. *)

Module Re.

Inductive regex : Type :=
| Lit (c : ascii)                  (* a literal character *)
| Star (p : ascii -> bool)         (* [class]*  *)
| Plus (p : ascii -> bool)         (* [class]+  *)
| StarLazy (p : ascii -> bool)     (* [class]*? *)
| Opt (r : regex)                  (* (?:r)?    *)
| Cat (r1 r2 : regex)
| Grp (r : regex)                  (* (r), group 1 *)
| Bnd.                             (* \b *)

Infix "⋅" := Cat (at level 41, right associativity).

Section Matcher.
Context {A : Type}.

(** The state of a match: the character before the position, the text
    from the position on, the text of group 1 if it has matched. *)
Definition cont : Type := option ascii -> string -> option string -> option A.

Fixpoint star (p : ascii -> bool) (prev : option ascii) (s : string)
    (k : option ascii -> string -> option A) : option A :=
  match s with
  | String c s' =>
      if p c then
        match star p (Some c) s' k with
        | Some a => Some a
        | None => k prev s
        end
      else k prev s
  | EmptyString => k prev s
  end.

Fixpoint star_lazy (p : ascii -> bool) (prev : option ascii) (s : string)
    (k : option ascii -> string -> option A) : option A :=
  match k prev s with
  | Some a => Some a
  | None =>
      match s with
      | String c s' => if p c then star_lazy p (Some c) s' k else None
      | EmptyString => None
      end
  end.

Definition word_at (c : option ascii) : bool :=
  match c with
  | Some c => is_word c
  | None => false
  end.

Definition next_char (s : string) : option ascii :=
  match s with
  | String c _ => Some c
  | EmptyString => None
  end.

Fixpoint run (r : regex) (prev : option ascii) (s : string)
    (g : option string) (k : cont) : option A :=
  match r with
  | Lit c =>
      match s with
      | String c' s' => if is_char c c' then k (Some c') s' g else None
      | EmptyString => None
      end
  | Star p => star p prev s (fun prev' s' => k prev' s' g)
  | Plus p =>
      match s with
      | String c s' =>
          if p c then star p (Some c) s' (fun prev' s' => k prev' s' g) else None
      | EmptyString => None
      end
  | StarLazy p => star_lazy p prev s (fun prev' s' => k prev' s' g)
  | Opt r' =>
      match run r' prev s g k with
      | Some a => Some a
      | None => k prev s g
      end
  | Cat r1 r2 => run r1 prev s g (fun prev' s' g' => run r2 prev' s' g' k)
  | Grp r' =>
      run r' prev s g
        (fun prev' s' _ => k prev' s' (Some (str_take (String.length s - String.length s') s)))
  | Bnd =>
      if xorb (word_at prev) (word_at (next_char s)) then k prev s g else None
  end.
End Matcher.

(** A match found at a position: [group(0)], [group(1)] and the text after
    the match. *)
Record found := { group0 : string; group1 : string; after : string }.

(** The pattern tried at one position. A group that did not take part in
    the match reads as the empty text. *)
Definition match_at (r : regex) (prev : option ascii) (s : string) : option found :=
  run r prev s None
    (fun _ s' g =>
       Some {| group0 := str_take (String.length s - String.length s') s;
               group1 := default "" g;
               after := s' |}).

(** [re.finditer]: the matches from left to right, none overlapping the
    one before. [skip] counts the characters of the last match that are
    still to be passed. *)
Fixpoint finditer_from (r : regex) (prev : option ascii) (s : string)
    (skip : nat) : list found :=
  match skip with
  | S n =>
      match s with
      | String c s' => finditer_from r (Some c) s' n
      | EmptyString => []
      end
  | O =>
      match match_at r prev s with
      | Some m =>
          m :: match s with
               | String c s' => finditer_from r (Some c) s' (pred (String.length (group0 m)))
               | EmptyString => []
               end
      | None =>
          match s with
          | String c s' => finditer_from r (Some c) s' 0
          | EmptyString => []
          end
      end
  end.

Definition finditer (r : regex) (s : string) : list found :=
  finditer_from r None s 0.

(** [re.findall] for a pattern with one group *)
Definition findall (r : regex) (s : string) : list string :=
  map group1 (finditer r s).

End Re.
Import Re.

(** ** FormatString._extract_keys *)

Module Keys.

(** [FormatString.additional_context]: two modules, a function and a
    module, host objects all four. *)
Definition additional_context : dict pyval :=
  [("datetime", PObj "<module 'datetime'>");
   ("now", PObj "<function FormatString.time_now>");
   ("random", PObj "<module 'random'>");
   ("math", PObj "<module 'math'>")].

Definition additional_context_keys : list string := dict_keys additional_context.

Definition word_or_dot (c : ascii) : bool := is_word c || is_char "." c.
Definition word_or_space (c : ascii) : bool := is_word c || is_space c.
Definition not_paren (c : ascii) : bool := negb (is_char "(" c || is_char ")" c).
(** [.] without DOTALL: any character but the newline *)
Definition dot (c : ascii) : bool := negb (Nat.eqb (code c) 10).

(** [\{\{\s*([\w.]+)(?:\|[\w\s]+)?(?:\.[^\(\)]+\(\))?\s*\}\}] *)
Definition jinja_expression : regex :=
  Lit "{" ⋅ Lit "{" ⋅ Star is_space ⋅ Grp (Plus word_or_dot) ⋅
  Opt (Lit "|" ⋅ Plus word_or_space) ⋅
  Opt (Lit "." ⋅ Plus not_paren ⋅ Lit "(" ⋅ Lit ")") ⋅
  Star is_space ⋅ Lit "}" ⋅ Lit "}".

(** [\{(\w+)\}] *)
Definition format_field : regex := Lit "{" ⋅ Grp (Plus is_word) ⋅ Lit "}".

(** [\{%.*?%\}] *)
Definition control_structure : regex :=
  Lit "{" ⋅ Lit "%" ⋅ StarLazy dot ⋅ Lit "%" ⋅ Lit "}".

(** [\b(\w+)\|\b] *)
Definition filtered_name : regex := Bnd ⋅ Grp (Plus is_word) ⋅ Lit "|" ⋅ Bnd.

(** The two locals of [_extract_keys] that [add_var] updates. *)
Record acc := Acc { variables : list string; seen : gset string }.

(** [add_var] *)
Definition add_var (var : string) (a : acc) : acc :=
  let var := strip (split_head "." (split_head "|" var)) in
  if decide ((var ∉ seen a) ∧ (var ∉ additional_context_keys))
  then Acc (variables a ++ [var]) ({[var]} ∪ seen a)
  else a.

Definition keywords : list string := ["if"; "else"; "elif"; "for"; "in"].

(** The body of the loop over one control structure. *)
Definition add_filtered (structure : found) (a : acc) : acc :=
  fold_left
    (fun a var =>
       if negb (startswith var "end") && negb (bool_decide (var ∈ keywords))
       then add_var var a else a)
    (findall filtered_name (group0 structure)) a.

Definition _extract_keys (template : string) : list string :=
  let a := Acc [] ∅ in
  let a := fold_left (fun a m => add_var (group1 m) a)
             (finditer jinja_expression template) a in
  let a := fold_left (fun a m => add_var (group1 m) a)
             (finditer format_field template) a in
  let a := fold_left (fun a m => add_filtered m a)
             (finditer control_structure template) a in
  variables a.

End Keys.
Import Keys.


(** ** FormatString *)

Module FormatString.

(** What the class calls and does not define: the output directory of
    ComfyUI, [os.path.join], [str.format], the Jinja2 environment [jinja_env],
    the file system and the [print] of rich. [save_raises path data] is the
    exception that [os.makedirs], [open] or [json.dump] raises when [data]
    is written to [path], if one is raised, and [truncates path data] tells
    whether [open] had then created or emptied the file; [load path] is
    [open] followed by [json.load]; [markup_error text] is the message of
    the [MarkupError] that [print(text)] raises, if it raises; [exn_text e]
    is [str(e)]. *)
Record host := {
  output_directory : string;
  path_join : string → string → string;
  str_format : string → dict pyval → result string;
  jinja_render : string → dict pyval → result string;
  save_raises : string → pydata → option exn;
  truncates : string → pydata → bool;
  load : string → result pydata;
  markup_error : string → option string;
  exn_text : exn → string
}.

(** A file of the disk: the value [json.dump] has written in full, or what
    a write that raised has left. *)
Inductive file : Type :=
| Json (data : pydata)
| Partial.

(** The files, by path. *)
Abbreviation disk := (gmap string file).

(** [print(text)] *)
Definition rich_print (h : host) (text : string) : result unit :=
  match markup_error h text with
  | Some msg => Raise (MarkupError msg)
  | None => Return ()
  end.

(** [try: body except ...: handler] *)
Definition try_except {A} (body : result A) (handler : exn → result A) : result A :=
  match body with
  | Return a => Return a
  | Raise e => handler e
  end.

(** The class attributes that hold data. *)
Record class_state := {
  CATEGORY : string;
  FUNCTION : string;
  RETURN_TYPES : list string;
  RETURN_NAMES : list string;
  node_configs : gmap string pydata
}.

(** The class as its body leaves it. *)
Definition initial_class : class_state :=
  {| CATEGORY := "dv/string_operations";
     FUNCTION := "format_string";
     RETURN_TYPES := ["STRING"; "STRING"];
     RETURN_NAMES := ["formatted_string"; "saved_file_path"];
     node_configs := ∅ |}.

(** The first half of [format_string]: the formatted string. *)
Definition render (h : host) (template_type template : string)
    (kwargs : dict pyval) : result string :=
  if String.eqb template_type "Simple" then str_format h template kwargs
  else
    try_except
      (jinja_render h template (dict_merge additional_context kwargs))
      (λ e, match e with
            | TemplateSyntaxError msg =>
                Return ("Error in Jinja2 template: " +:+ msg)
            | _ => Raise e
            end).

(** [{k: kwargs.get(k, "") for k in keys}] *)
Definition saved_inputs (keys : list string) (kwargs : dict pyval) : dict pydata :=
  fold_left (λ d k, dict_set d k (DVal (get_or_empty kwargs k))) keys [].

Definition save_data (template_type template : string) (keys : list string)
    (kwargs : dict pyval) : pydata :=
  DDict [("template_type", DVal (PStr template_type));
         ("template", DVal (PStr template));
         ("inputs", DDict (saved_inputs keys kwargs))].

(** The body of the [try] of the save block: the write, then the print
    of the path. *)
Definition write_state (h : host) (save_path : string) (data : pydata)
    (d : disk) : result unit * disk :=
  match save_raises h save_path data with
  | Some e =>
      (Raise e, if truncates h save_path data then <[save_path := Partial]> d else d)
  | None =>
      (rich_print h ("Node state saved to: " +:+ save_path),
       <[save_path := Json data]> d)
  end.

(** The [if save_path:] block: the value [save_path] has after it, or the
    exception the print of the handler raises, and the disk. *)
Definition save_state (h : host) (save_path : string) (data : pydata)
    (d : disk) : result string * disk :=
  if truthy (PStr save_path) then
    let save_path := path_join h (output_directory h) save_path in
    let '(written, d) := write_state h save_path data d in
    match written with
    | Return _ => (Return save_path, d)
    | Raise e =>
        match rich_print h ("Error saving node state: " +:+ exn_text h e) with
        | Return _ => (Return "", d)
        | Raise e' => (Raise e', d)
        end
    end
  else (Return save_path, d).

Definition format_string (h : host) (template_type template save_path : string)
    (kwargs : dict pyval) (d : disk) : result (list string) * disk :=
  let keys := _extract_keys template in
  match render h template_type template kwargs with
  | Raise e => (Raise e, d)
  | Return formatted_string =>
      let data := save_data template_type template keys kwargs in
      let '(saved, d) := save_state h save_path data d in
      match saved with
      | Return save_path =>
          (Return (map (λ key, py_str (get_or_empty kwargs key)) keys
                   ++ [formatted_string; save_path]), d)
      | Raise e => (Raise e, d)
      end
  end.

Definition string_input : pydata :=
  DTuple [DVal (PStr "STRING"); DDict [("default", DVal (PStr ""))]].

Definition output_socket (name : string) : pydata :=
  DDict [("name", DVal (PStr name)); ("type", DVal (PStr "STRING"))].

Definition fixed_inputs : dict pydata :=
  [("template_type", DTuple [DList [DVal (PStr "Simple"); DVal (PStr "Jinja2")]]);
   ("template",
     DTuple [DVal (PStr "STRING"); DDict [("multiline", DVal (PBool true))]]);
   ("save_path", string_input)].

(** [update_widget]: the configuration it returns and the class after
    the call. *)
Definition update_widget (c : class_state) (node_id template_type template : string)
    : pydata * class_state :=
  let keys := _extract_keys template in
  let '(inputs, outputs) :=
    fold_left
      (λ '(inputs, outputs) key,
         (dict_set inputs key string_input, outputs ++ [output_socket key]))
      keys (fixed_inputs, []) in
  let outputs :=
    outputs ++ [output_socket "formatted_string"; output_socket "saved_file_path"] in
  let config := DDict [("inputs", DDict inputs); ("outputs", DList outputs)] in
  (config,
   {| CATEGORY := CATEGORY c;
      FUNCTION := FUNCTION c;
      RETURN_TYPES := replicate (length keys) "STRING" ++ ["STRING"; "STRING"];
      RETURN_NAMES := keys ++ ["formatted_string"; "saved_file_path"];
      node_configs := <[node_id := config]> (node_configs c) |}).

(** [cls.node_configs.get(node_id, {})] *)
Definition get_node_config (c : class_state) (node_id : string) : pydata :=
  default (DDict []) (node_configs c !! node_id).

Definition load_node_state (h : host) (file_path : string) : result pydata :=
  try_except (load h file_path)
    (λ e, match e with
          | FileNotFoundError => Return (DDict [])
          | _ =>
              match rich_print h ("Error loading node state: " +:+ exn_text h e) with
              | Return _ => Return (DDict [])
              | Raise e' => Raise e'
              end
          end).

(** The calls a host makes on the class, and what each leaves of the
    class and of the disk. *)
Inductive call : Type :=
| Extract_keys (template : string)
| Format_string (template_type template save_path : string) (kwargs : dict pyval)
| Update_widget (node_id template_type template : string)
| Get_node_config (node_id : string)
| Load_node_state (file_path : string).

Definition after_call (h : host) (op : call) (w : class_state * disk)
    : class_state * disk :=
  match op with
  | Format_string ty t sp kwargs => (w.1, (format_string h ty t sp kwargs w.2).2)
  | Update_widget node_id ty t => ((update_widget w.1 node_id ty t).2, w.2)
  | Extract_keys _ | Get_node_config _ | Load_node_state _ => w
  end.

(** *** A host to run the class on *)

(** [posixpath.join] of two parts *)
Definition posix_join (a b : string) : string :=
  if String.prefix "/" b then b
  else if String.eqb a "" || String.eqb (String.substring (String.length a - 1) 1 a) "/"
       then a +:+ b
       else a +:+ "/" +:+ b.

(** [str.format] on the templates whose fields are plain names: [{name}]
    is [str(kwargs[name])], a doubled brace is a brace. A field that is
    not a run of word characters is outside this fragment and raises. *)
Fixpoint simple_format_from (s : string) (field : option string)
    (kwargs : dict pyval) : result string :=
  let emit (c : string) (r : result string) : result string :=
    match r with
    | Return out => Return (c +:+ out)
    | Raise e => Raise e
    end in
  match s with
  | EmptyString =>
      match field with
      | None => Return ""
      | Some _ => Raise (OtherError "ValueError")
      end
  | String c s' =>
      match field with
      | Some name =>
          if is_char "}" c then
            match dict_get kwargs name with
            | Some v => emit (py_str v) (simple_format_from s' None kwargs)
            | None => Raise (KeyError name)
            end
          else if is_word c then
            simple_format_from s' (Some (name +:+ String c "")) kwargs
          else Raise (OtherError "ValueError")
      | None =>
          if is_char "{" c then
            match s' with
            | String "{" s'' => emit "{" (simple_format_from s'' None kwargs)
            | _ => simple_format_from s' (Some "") kwargs
            end
          else if is_char "}" c then
            match s' with
            | String "}" s'' => emit "}" (simple_format_from s'' None kwargs)
            | _ => Raise (OtherError "ValueError")
            end
          else emit (String c "") (simple_format_from s' None kwargs)
      end
  end.

Definition simple_format (template : string) (kwargs : dict pyval) : result string :=
  simple_format_from template None kwargs.

(** The text of the exceptions of the example hosts. *)
Definition example_text (e : exn) : string :=
  match e with
  | KeyError key => "'" +:+ key +:+ "'"
  | TemplateSyntaxError msg | MarkupError msg | OSError msg => msg
  | _ => ""
  end.

(** A host with ComfyUI's output directory at [/ComfyUI/output], where
    [open] can write or is refused, no Jinja2 template renders, [/etc/passwd]
    is a file and no other file is there to load. *)
Definition example_host (writable : bool) : host :=
  {| output_directory := "/ComfyUI/output";
     path_join := posix_join;
     str_format := simple_format;
     jinja_render := λ _ _, Raise (OtherError "UndefinedError");
     save_raises := λ path _,
       if writable then None
       else Some (OSError ("[Errno 13] Permission denied: '" +:+ path +:+ "'"));
     truncates := λ _ _, false;
     load := λ path,
       if String.prefix "/etc/passwd/" path
       then Raise (OSError ("[Errno 20] Not a directory: '" +:+ path +:+ "'"))
       else Raise FileNotFoundError;
     markup_error := closing_tag_error;
     exn_text := example_text |}.

End FormatString.

(** ** RandomChoice *)

Module RandomChoice.

(** The module [random]: the state [random.seed(a)] sets, and a draw for a
    bound with the state after it. What the generator computes is left
    open; [randbelow] keeps the one thing the library promises, a result
    below the bound. With it comes the [print] of rich: [markup_error text]
    is the message of the [MarkupError] that [print(text)] raises, if it
    raises. *)
Record generator := {
  rng : Type;
  seed : pyval → rng;
  draw : rng → Z → Z * rng;
  markup_error : string → option string
}.

(** The line feed *)
Definition nl : string := String "010" "".

(** [sys.maxsize] *)
Definition maxsize : Z := 9223372036854775807.

Section Node.
Context (g : generator).

(** [random.randrange(n)] and [_randbelow(n)] for [n > 0] *)
Definition randbelow (st : rng g) (n : Z) : Z * rng g :=
  let '(r, st') := draw g st n in ((r mod n)%Z, st').

(** [kwargs.get("seed")] *)
Definition seed_arg (kwargs : dict pyval) : pyval :=
  default PNone (dict_get kwargs "seed").

(** The conditional expression at the head of [random_choice]. *)
Definition reseed (kwargs : dict pyval) (st : rng g) : rng g :=
  if truthy (seed_arg kwargs) then seed g (seed_arg kwargs)
  else seed g (PInt (randbelow st maxsize).1).

(** [[i for i in kwargs.items() if i[0] != "seed"]] *)
Definition inputs (kwargs : dict pyval) : list (string * pyval) :=
  filter (λ i, i.1 ≠ "seed") kwargs.

(** [random.choice(input)[1]] *)
Definition choice (input : list (string * pyval)) (st : rng g)
    : result pyval * rng g :=
  match input with
  | [] => (Raise IndexError, st)
  | _ =>
      let '(i, st') := randbelow st (Z.of_nat (length input)) in
      match input !! Z.to_nat i with
      | Some item => (Return item.2, st')
      | None => (Raise IndexError, st')
      end
  end.

(** The print of the chosen value is inside the [try], whose handler
    raises what it caught. The text is given without the colour codes of
    termcolor, which hold no tag. *)
Definition random_choice (kwargs : dict pyval) (st : rng g)
    : result (list pyval) * rng g :=
  let st := reseed kwargs st in
  let '(r, st) := choice (inputs kwargs) st in
  match r with
  | Return choice =>
      match markup_error g ("Chose: " +:+ py_str choice +:+ nl) with
      | None => (Return [choice], st)
      | Some msg => (Raise (MarkupError msg), st)
      end
  | Raise e => (Raise e, st)
  end.

(** [IS_CHANGED] calls [random_choice] with the class in the place of
    [self]. *)
Definition IS_CHANGED (kwargs : dict pyval) (st : rng g)
    : result (list pyval) * rng g :=
  random_choice kwargs st.
End Node.

(** A generator to run the node on: the state is a counter, [seed] of an
    integer is that integer, a draw returns the counter and steps it. *)
Definition counter : generator :=
  {| rng := Z;
     seed := λ a, match a with PInt z => z | _ => 0%Z end;
     draw := λ st _, (st, (st + 1)%Z);
     markup_error := closing_tag_error |}.

End RandomChoice.

(** ** CircuitBreaker *)

Module CircuitBreaker.

Definition doit (trigger : pyval) (kwargs : dict pyval) : result (list pyval) :=
  if truthy (default PNone (dict_get kwargs "status"))
  then Raise InterruptProcessingException
  else Return [trigger].

End CircuitBreaker.

(** ** FormatString.IS_CHANGED *)

Module IsChanged.
Import RandomChoice.

(** What [IS_CHANGED] returns: the keyword arguments it was given, or a
    number drawn for this call. *)
Inductive changed : Type :=
| Kwargs (kwargs : dict pyval)
| Token (n : Z).

(** [kwargs.get('template_type', "simple") == "Jinja2"] *)
Definition is_jinja2 (kwargs : dict pyval) : bool :=
  match default (PStr "simple") (dict_get kwargs "template_type") with
  | PStr template_type => String.eqb template_type "Jinja2"
  | _ => false
  end.

(** The loop over [additional_context.keys()]: true when it returns from
    its body, at the first [k] with [k in template]. *)
Fixpoint detected (ks : list string) (template : string) : bool :=
  match ks with
  | [] => false
  | k :: ks' => if contains template k then true else detected ks' template
  end.

(** [_extract_keys] is called first, on whatever [kwargs.get('template')]
    is; [re.finditer] raises [TypeError] on a value that is not a string.
    The keys are printed and not used. *)
Definition IS_CHANGED (g : generator) (kwargs : dict pyval) (st : rng g)
    : result changed * rng g :=
  match dict_get kwargs "template" with
  | Some (PStr template) =>
      if is_jinja2 kwargs && detected additional_context_keys template
      then let '(n, st') := randbelow g st maxsize in (Return (Token n), st')
      else (Return (Kwargs kwargs), st)
  | _ => (Raise (OtherError "TypeError"), st)
  end.

End IsChanged.

(** ** ModelUnloader *)

Module ModelUnloader.

(** [DEVICE_TYPE]: [ROCm] is given the value of [CUDA], which makes it a
    second name of that member. *)
Inductive DEVICE_TYPE : Type := CUDA | MPS | CPU.

Definition ROCm : DEVICE_TYPE := CUDA.

Definition value (t : DEVICE_TYPE) : string :=
  match t with
  | CUDA => "cuda"
  | MPS => "mps"
  | CPU => "cpu"
  end.

(** The calls the node makes on ComfyUI, torch, [requests] and
    [os.environ], in the order it makes them. A loaded model is named by
    the text of its [model] attribute. *)
Inductive event : Type :=
| Model_unload (model : string)        (* m.model_unload() *)
| Cuda_empty_cache                     (* torch.cuda.empty_cache() *)
| Soft_empty_cache                     (* model_management.soft_empty_cache() *)
| Post (url : string) (json : pydata)  (* requests.post(url, json=json) *)
| Setenv (name value : string).        (* os.environ[name] = value *)

(** What the node reads from the host: [current_loaded_models] (the calls
    of the node do not change the list), the two availability tests, for
    each call the exception it raises, if it raises one, and the [print]
    of rich: [markup_error text] is the message of the [MarkupError] that
    [print(text)] raises, if it raises, and [exn_text e] is [str(e)]. The
    status code of a response is a number, and the attributes of the loaded
    models go through [pprint], which reads no markup. A model is a
    [ModelPatcher], whose text is [<comfy.model_patcher.ModelPatcher object
    at 0x...>]: it has no bracket, and the prints of a model are taken to
    return. *)
Record host := {
  current_loaded_models : list string;
  cuda_is_available : bool;
  mps_is_available : bool;
  raises : event → option exn;
  markup_error : string → option string;
  exn_text : exn → string
}.

(** Code that logs its calls on the host and can raise. *)
Definition M (A : Type) : Type := list event → result A * list event.

#[global] Instance M_ret : MRet M := λ A a log, (Return a, log).

#[global] Instance M_bind : MBind M := λ A B f m log,
  match m log with
  | (Return a, log') => f a log'
  | (Raise e, log') => (Raise e, log')
  end.

Definition raise {A} (e : exn) : M A := λ log, (Raise e, log).

(** A call that returns. *)
Definition tell (ev : event) : M unit := λ log, (Return (), log ++ [ev]).

(** A call that returns or raises. *)
Definition host_call (h : host) (ev : event) : M unit := λ log,
  match raises h ev with
  | None => (Return (), log ++ [ev])
  | Some e => (Raise e, log ++ [ev])
  end.

(** [print(text)] *)
Definition rich_print (h : host) (text : string) : M unit := λ log,
  match markup_error h text with
  | Some msg => (Raise (MarkupError msg), log)
  | None => (Return (), log)
  end.

(** [try: body except Exception as e: handler] *)
Definition catch (body : M unit) (handler : exn → M unit) : M unit := λ log,
  match body log with
  | (Return a, log') => (Return a, log')
  | (Raise e, log') => handler e log'
  end.

Fixpoint for_each {A} (l : list A) (body : A → M unit) : M unit :=
  match l with
  | [] => mret ()
  | x :: l' => body x;; for_each l' body
  end.

(** The result is the text handed to [torch.device]. With a
    [device_type], which as an enum member is true, the text is the
    f-string whose second field is
    [':' & device_number if device_number else '']. *)
Definition get_best_pytorch_device (h : host) (device_type : option DEVICE_TYPE)
    (device_number : Z) : M string :=
  match device_type with
  | Some device_type =>
      if truthy (PInt device_number) then raise (OtherError "TypeError")
      else mret (value device_type +:+ "")
  | None =>
      if cuda_is_available h then
        mret (value CUDA +:+ ":" +:+ py_str (PInt device_number))
      else if mps_is_available h then
        tell (Setenv "PYTORCH_ENABLE_MPS_FALLBACK" "1");; mret (value MPS)
      else mret (value CPU)
  end.

(** [torch.device(text).type]: the text before the colon *)
Definition device_type_of (text : string) : string := split_head ":" text.

Definition free_request : pydata :=
  DDict [("unload_models", DVal (PBool true)); ("free_memory", DVal (PBool true))].

Definition clear_memory (h : host) (api_url : string) : M unit :=
  device ← get_best_pytorch_device h None 0;
  (if String.eqb (device_type_of device) "cuda"
   then host_call h Cuda_empty_cache else mret ());;
  host_call h Soft_empty_cache;;
  catch
    (rich_print h ("Calling /free API at " +:+ api_url
                   +:+ " to unload models and free memory...");;
     host_call h (Post (api_url +:+ "/free") free_request))
    (λ e, rich_print h ("Failed to call /free API: " +:+ exn_text h e)).

(** [m.model == model_to_unload]: a model is equal to itself only. *)
Definition same_model (m : string) (model_to_unload : pyval) : bool :=
  match model_to_unload with
  | PObj model => String.eqb m model
  | _ => false
  end.

(** [print(f"Unloading {model_to_unload}") if model_to_unload else None]:
    a number and a truth value print without a bracket, a model as above. *)
Definition print_unloading (h : host) (model_to_unload : pyval) : M unit :=
  match model_to_unload with
  | PStr s => if truthy model_to_unload then rich_print h ("Unloading " +:+ s) else mret ()
  | _ => mret ()
  end.

Definition unload_model (h : host) (trigger : pyval) (api_url : string)
    (kwargs : dict pyval) : M (list pyval) :=
  let model_to_unload := default PNone (dict_get kwargs "model") in
  print_unloading h model_to_unload;;
  let loaded_models := current_loaded_models h in
  (if truthy model_to_unload then
     for_each loaded_models
       (λ m, if same_model m model_to_unload
             then host_call h (Model_unload m) else mret ())
   else for_each loaded_models (λ m, host_call h (Model_unload m)));;
  clear_memory h api_url;;
  host_call h Soft_empty_cache;;
  mret [trigger].

End ModelUnloader.

(** * Specification *)

Module Spec.
Import FormatString.

(** ** Occurrences of a name in a template *)

(** [p] occurs in [t] as a contiguous piece. *)
Definition infix (p t : string) : Prop := ∃ pre post, t = pre +:+ p +:+ post.

Definition word_string (v : string) : Prop := all_chars is_word v = true.

(** [{v}]: the Python format field. *)
Definition occurs_format (v t : string) : Prop :=
  v ≠ "" ∧ infix ("{" +:+ v +:+ "}") t.

(** [{{ v ... }}]: the Jinja2 expression; [v] comes after the braces and
    optional white space, and is not followed by a word character. *)
Definition occurs_jinja_expression (v t : string) : Prop :=
  ∃ ws tail,
    all_chars is_space ws = true ∧ word_at (next_char tail) = false
    ∧ infix ("{{" +:+ ws +:+ v +:+ tail +:+ "}}") t.

(** [{% ... v|... %}]: a name with a filter inside a Jinja2 control
    structure. *)
Definition occurs_control (v t : string) : Prop :=
  v ≠ "" ∧
  ∃ mid, infix ("{%" +:+ mid +:+ "%}") t
         ∧ infix (v +:+ "|") ("{%" +:+ mid +:+ "%}").

(** Where a returned name comes from. *)
Definition provenance (t v : string) : Prop :=
  word_string v
  ∧ (occurs_jinja_expression v t ∨ occurs_format v t ∨ occurs_control v t).

(** The reading of C1 as it is written: every returned name stands in
    the template as [{v}] or in a [{{ v }}] expression, no name is
    returned twice, and no key of [additional_context] is returned. *)
Definition names_in_two_dialects (t : string) : Prop :=
  (∀ v, v ∈ _extract_keys t →
        occurs_format v t ∨ occurs_jinja_expression v t)
  ∧ NoDup (_extract_keys t)
  ∧ (∀ v, v ∈ _extract_keys t → v ∉ additional_context_keys).

(** ** The patterns read as relations *)

(** [sem r s g s' g']: [r] can consume a prefix of [s] and leave [s'],
    taking group 1 from [g] to [g']. Word boundaries are not recorded: the
    relation is an upper bound of what the matcher accepts. *)
Fixpoint sem (r : regex) (s : string) (g : option string)
    (s' : string) (g' : option string) : Prop :=
  match r with
  | Lit c => s = String c s' ∧ g' = g
  | Star p | StarLazy p => ∃ w, s = w +:+ s' ∧ all_chars p w = true ∧ g' = g
  | Plus p =>
      ∃ w, s = w +:+ s' ∧ all_chars p w = true ∧ w ≠ "" ∧ g' = g
  | Opt r' => sem r' s g s' g' ∨ (s' = s ∧ g' = g)
  | Cat r1 r2 => ∃ sm gm, sem r1 s g sm gm ∧ sem r2 sm gm s' g'
  | Grp r' => ∃ g0 w, sem r' s g s' g0 ∧ s = w +:+ s' ∧ g' = Some w
  | Bnd => s' = s ∧ g' = g
  end.

(** The name [add_var] derives from the text of a group. *)
Definition normalise (var : string) : string :=
  strip (split_head "." (split_head "|" var)).

(** What the loops of [_extract_keys] keep true of the two locals. *)
Record acc_ok (t : string) (a : acc) : Prop := {
  ok_nodup : NoDup (variables a);
  ok_seen : ∀ x, x ∈ seen a ↔ x ∈ variables a;
  ok_context : ∀ x, x ∈ variables a → x ∉ additional_context_keys;
  ok_provenance : ∀ x, x ∈ variables a → provenance t x
}.

(** ** The tuple and the file of [format_string] *)

(** The string value of each extracted variable, taken from the keyword
    arguments in the order of extraction, the empty string for a variable
    that is missing. *)
Definition input_values (template : string) (kwargs : dict pyval) : list string :=
  map (λ key, match dict_get kwargs key with
              | Some value => py_str value
              | None => ""
              end)
    (_extract_keys template).

(** The value the state file has for a variable: its keyword argument,
    the empty string when it is missing. *)
Definition saved_value (kwargs : dict pyval) (key : string) : pydata :=
  match dict_get kwargs key with
  | Some value => DVal value
  | None => DVal (PStr "")
  end.

(** The text the save block prints first: none without a [save_path], the
    path after a write that returned, the error after one that raised. *)
Definition save_message (h : host) (template_type template save_path : string)
    (kwargs : dict pyval) : option string :=
  if decide (save_path = "") then None
  else
    let path := path_join h (output_directory h) save_path in
    match save_raises h path
            (save_data template_type template (_extract_keys template) kwargs) with
    | None => Some ("Node state saved to: " +:+ path)
    | Some e => Some ("Error saving node state: " +:+ exn_text h e)
    end.

(** The print of the save block returns. *)
Definition save_printed (h : host) (template_type template save_path : string)
    (kwargs : dict pyval) : Prop :=
  ∀ text, save_message h template_type template save_path kwargs = Some text →
          markup_error h text = None.

(** The reading of C2 as it is written: the last element of the tuple is
    the [save_path] argument. *)
Definition returns_save_path (h : host) (template save_path : string)
    (kwargs : dict pyval) (d : disk) : Prop :=
  ∀ formatted, str_format h template kwargs = Return formatted →
    (format_string h "Simple" template save_path kwargs d).1
    = Return (input_values template kwargs ++ [formatted; save_path]).

(** The state file is written and the write raises. *)
Definition write_fails (h : host) (template_type template save_path : string)
    (kwargs : dict pyval) : Prop :=
  save_path ≠ ""
  ∧ ∃ e, save_raises h (path_join h (output_directory h) save_path)
           (save_data template_type template (_extract_keys template) kwargs)
         = Some e.

(** The state file is written and the write returns. *)
Definition write_succeeds (h : host) (template_type template save_path : string)
    (kwargs : dict pyval) : Prop :=
  save_path ≠ ""
  ∧ save_raises h (path_join h (output_directory h) save_path)
      (save_data template_type template (_extract_keys template) kwargs)
    = None.

(** ** Calls on the class *)

(** The reading of C4 as it is written: a call leaves every class
    attribute but [node_configs] as it was. *)
Definition only_node_configs_change (c c' : class_state) : Prop :=
  CATEGORY c' = CATEGORY c ∧ FUNCTION c' = FUNCTION c
  ∧ RETURN_TYPES c' = RETURN_TYPES c ∧ RETURN_NAMES c' = RETURN_NAMES c.

(** A call that stores a configuration under [node_id]. *)
Definition stores (node_id : string) (op : call) : Prop :=
  match op with
  | Update_widget id _ _ => id = node_id
  | _ => False
  end.

Definition run_calls (h : host) (ops : list call) (w : class_state * disk)
    : class_state * disk :=
  fold_left (λ w op, after_call h op w) ops w.

(** ** CircuitBreaker *)

(** [kwargs.get("status")] *)
Definition status (kwargs : dict pyval) : pyval :=
  default PNone (dict_get kwargs "status").

(** ** The three syntaxes as the patterns delimit them *)

(** The last character of [s], [prev] when [s] is empty. *)
Fixpoint last_of (prev : option ascii) (s : string) : option ascii :=
  match s with
  | EmptyString => prev
  | String c s' => last_of (Some c) s'
  end.

(** What an expression may hold after its dotted name: a filter, a bar
    and word characters or white space; then a call, a dot, a name without
    parentheses and [()]; then white space. Each may be missing. *)
Definition expression_tail (tail : string) : Prop :=
  ∃ filter call ws,
    tail = filter +:+ call +:+ ws
    ∧ (filter = ""
       ∨ ∃ f, filter = "|" +:+ f ∧ f ≠ ""
              ∧ all_chars (λ c, is_word c || is_space c) f = true)
    ∧ (call = ""
       ∨ ∃ m, call = "." +:+ m +:+ "()" ∧ m ≠ ""
              ∧ all_chars (λ c, negb (is_char "(" c || is_char ")" c)) m = true)
    ∧ all_chars is_space ws = true.

(** [{{ v.rest|filter.call() }}]: [v] is the first component of the dotted
    name of an expression. *)
Definition names_expression (v t : string) : Prop :=
  ∃ ws rest tail,
    all_chars is_space ws = true
    ∧ (rest = ""
       ∨ ∃ r, rest = "." +:+ r
              ∧ all_chars (λ c, is_word c || is_char "." c) r = true)
    ∧ expression_tail tail
    ∧ infix ("{{" +:+ ws +:+ v +:+ rest +:+ tail +:+ "}}") t.

(** [{% ... v|f ... %}]: [v] is a whole word that stands before a bar and a
    word character in a control structure, which runs on one line from
    [{%] to the first [%}]; it is no keyword of Jinja2 and does not start
    with [end]. *)
Definition filtered_in_structure (v t : string) : Prop :=
  ∃ mid before c after,
    infix ("{%" +:+ mid +:+ "%}") t
    ∧ all_chars (λ c, negb (Nat.eqb (code c) 10)) mid = true
    ∧ ¬ infix "%}" mid
    ∧ "{%" +:+ mid +:+ "%}" = before +:+ v +:+ "|" +:+ String c after
    ∧ word_at (last_of None before) = false
    ∧ is_word c = true
    ∧ String.prefix "end" v = false
    ∧ v ∉ ["if"; "else"; "elif"; "for"; "in"].

(** Where a name that is not empty comes from. *)
Definition origin (t v : string) : Prop :=
  names_expression v t ∨ occurs_format v t ∨ filtered_in_structure v t.

(** What the loops of [_extract_keys] keep true of [variables]. *)
Definition acc_origin (t : string) (a : acc) : Prop :=
  ∀ x, x ∈ variables a → x ≠ "" → origin t x.

End Spec.
Import Spec.

(** ** Notions for the properties of the other functions *)

Module Notions.
Import FormatString.

(** The set [seen] holds the names of [variables], no other. *)
Definition seen_tracks (a : acc) : Prop := ∀ x, x ∈ seen a ↔ x ∈ variables a.

(** A host whose Jinja2 environment rejects every template. *)
Definition strict_host : host :=
  {| output_directory := "/ComfyUI/output";
     path_join := posix_join;
     str_format := simple_format;
     jinja_render := λ _ _, Raise (TemplateSyntaxError "unexpected '}'");
     save_raises := λ _ _, None;
     truncates := λ _ _, false;
     load := λ _, Raise FileNotFoundError;
     markup_error := closing_tag_error;
     exn_text := example_text |}.

(** The dict [config["inputs"]] after the loop of [update_widget]. *)
Definition widget_inputs (keys : list string) : dict pydata :=
  fold_left (λ inputs key, dict_set inputs key string_input) keys fixed_inputs.

(** A call of [update_widget], whatever the node. *)
Definition updates (op : call) : Prop :=
  match op with
  | Update_widget _ _ _ => True
  | _ => False
  end.

(** A character that is not the opening brace. *)
Definition not_open (c : ascii) : bool := negb (is_char "{" c).

(** A text that starts with white space or the closing brace, if it
    starts. *)
Definition closes (s : string) : Prop :=
  ∀ c s', s = String c s' → is_space c = true ∨ c = "}"%char.

End Notions.
Import Notions.

Module UnloaderNotions.
Import ModelUnloader.

(** The loaded models [unload_model] is asked to unload: the ones equal
    to the [model] argument, all of them without one. *)
Definition selected (h : host) (kwargs : dict pyval) : list string :=
  match dict_get kwargs "model" with
  | Some (PObj model) => filter (λ m, m = model) (current_loaded_models h)
  | Some v => if truthy v then [] else current_loaded_models h
  | None => current_loaded_models h
  end.

(** The calls of [clear_memory]. *)
Definition cleared (h : host) (api_url : string) : list event :=
  (if cuda_is_available h then [Cuda_empty_cache]
   else if mps_is_available h then [Setenv "PYTORCH_ENABLE_MPS_FALLBACK" "1"]
   else [])
  ++ [Soft_empty_cache; Post (api_url +:+ "/free") free_request].

(** Every call on the host returns, but perhaps the request. *)
Definition host_returns (h : host) : Prop :=
  ∀ ev, (∀ url json, ev ≠ Post url json) → raises h ev = None.

(** The prints around the request return: the one of [api_url] before
    it, and the one of the exception if the request raises one. *)
Definition request_printed (h : host) (api_url : string) : Prop :=
  markup_error h ("Calling /free API at " +:+ api_url
                  +:+ " to unload models and free memory...") = None
  ∧ ∀ e, raises h (Post (api_url +:+ "/free") free_request) = Some e →
         markup_error h ("Failed to call /free API: " +:+ exn_text h e) = None.

(** The print of a [model] that is a string returns. *)
Definition model_printed (h : host) (kwargs : dict pyval) : Prop :=
  ∀ s, dict_get kwargs "model" = Some (PStr s) → s ≠ "" →
       markup_error h ("Unloading " +:+ s) = None.

(** A machine with CUDA and two models loaded, where [requests.post]
    finds no server. *)
Definition cuda_host : host :=
  {| current_loaded_models := ["<ModelPatcher 1>"; "<ModelPatcher 2>"];
     cuda_is_available := true;
     mps_is_available := false;
     raises := λ ev, match ev with
                     | Post _ _ => Some (OtherError "ConnectionError")
                     | _ => None
                     end;
     markup_error := closing_tag_error;
     exn_text := FormatString.example_text |}.

(** The same machine when unloading the second model fails. *)
Definition failing_host : host :=
  {| current_loaded_models := ["<ModelPatcher 1>"; "<ModelPatcher 2>"];
     cuda_is_available := true;
     mps_is_available := false;
     raises := λ ev, match ev with
                     | Model_unload "<ModelPatcher 2>" => Some (OtherError "RuntimeError")
                     | _ => None
                     end;
     markup_error := closing_tag_error;
     exn_text := FormatString.example_text |}.

(** One pass of the loop of [unload_model]. *)
Definition unload (h : host) (m : string) : M unit := host_call h (Model_unload m).

End UnloaderNotions.
Import UnloaderNotions.

(** * Properties *)

(** ** Strings *)

Module StrFacts.

Lemma sapp_cons c s t : String c s +:+ t = String c (s +:+ t).
Proof. reflexivity. Qed.

Lemma sapp_nil_l s : "" +:+ s = s.
Proof. reflexivity. Qed.

Lemma sapp_nil_r s : s +:+ "" = s.
Proof. induction s as [|c s IH]; [reflexivity|]. by rewrite sapp_cons, IH. Qed.

Lemma sapp_assoc s t u : (s +:+ t) +:+ u = s +:+ t +:+ u.
Proof. induction s as [|c s IH]; [reflexivity|]. by rewrite !sapp_cons, IH. Qed.

Lemma slength_app s t : String.length (s +:+ t) = String.length s + String.length t.
Proof. induction s as [|c s IH]; [reflexivity|]. rewrite sapp_cons. simpl. by rewrite IH. Qed.

Lemma sapp_inv_tail w1 w2 t : w1 +:+ t = w2 +:+ t → w1 = w2.
Proof.
  revert w2. induction w1 as [|c w1 IH]; intros [|c' w2] H.
  - done.
  - apply (f_equal String.length) in H.
    rewrite sapp_nil_l, slength_app in H. simpl in H. lia.
  - apply (f_equal String.length) in H.
    rewrite sapp_nil_l, slength_app in H. simpl in H. lia.
  - rewrite !sapp_cons in H. inversion H; subst. f_equal. by apply IH.
Qed.

Lemma str_take_app w s : str_take (String.length w) (w +:+ s) = w.
Proof.
  induction w as [|c w IH]; [by destruct s|].
  rewrite sapp_cons. simpl. by rewrite IH.
Qed.

Lemma str_take_consumed w s :
  str_take (String.length (w +:+ s) - String.length s) (w +:+ s) = w.
Proof.
  rewrite slength_app.
  replace (String.length w + String.length s - String.length s)
    with (String.length w) by lia.
  apply str_take_app.
Qed.

Lemma all_chars_app p s t :
  all_chars p (s +:+ t) = all_chars p s && all_chars p t.
Proof.
  induction s as [|c s IH]; [reflexivity|].
  rewrite sapp_cons. simpl. rewrite IH. by destruct (p c).
Qed.

Lemma all_chars_impl (p q : ascii → bool) s :
  (∀ c, p c = true → q c = true) → all_chars p s = true → all_chars q s = true.
Proof.
  intros Hpq. induction s as [|c s IH]; [done|]. simpl.
  intros [Hc Hs]%andb_prop. rewrite (Hpq _ Hc). simpl. auto.
Qed.

Lemma infix_refl t : infix t t.
Proof. exists "", "". by rewrite sapp_nil_r. Qed.

Lemma infix_app_l p pre t : infix p t → infix p (pre +:+ t).
Proof.
  intros (a & b & ->). exists (pre +:+ a), b. by rewrite sapp_assoc.
Qed.

Lemma infix_app_r p post t : infix p t → infix p (t +:+ post).
Proof.
  intros (a & b & ->). exists a, (b +:+ post). by rewrite !sapp_assoc.
Qed.

Lemma infix_trans p q t : infix p q → infix q t → infix p t.
Proof.
  intros (a & b & ->) (c & d & ->). exists (c +:+ a), (b +:+ d).
  by rewrite !sapp_assoc.
Qed.

Lemma infix_prefix_part p q t : infix (p +:+ q) t → infix p t.
Proof.
  intros (a & b & ->). exists a, (q +:+ b). by rewrite !sapp_assoc.
Qed.

Lemma prefix_true p s : String.prefix p s = true → ∃ post, s = p +:+ post.
Proof.
  revert s. induction p as [|c p IH]; intros s H.
  - by exists s.
  - destruct s as [|c' s]; [done|]. simpl in H.
    destruct (ascii_dec c c') as [->|]; [|done].
    destruct (IH _ H) as [post ->]. by exists post.
Qed.

Lemma prefix_app p post : String.prefix p (p +:+ post) = true.
Proof.
  induction p as [|c p IH]; [by destruct post|].
  rewrite sapp_cons. simpl. by destruct (ascii_dec c c).
Qed.

Lemma contains_nil p : contains "" p = String.prefix p "".
Proof. unfold contains. apply orb_false_r. Qed.

Lemma contains_cons c s p :
  contains (String c s) p = String.prefix p (String c s) || contains s p.
Proof. reflexivity. Qed.

(** [contains] decides [infix]. *)
Lemma contains_infix s p : contains s p = true ↔ infix p s.
Proof.
  split.
  - induction s as [|c s IH].
    + rewrite contains_nil. intros [post ->]%prefix_true.
      exists "", post. reflexivity.
    + rewrite contains_cons. intros [H|H]%orb_prop.
      * apply prefix_true in H as [post ->]. by exists "", post.
      * destruct (IH H) as (a & b & ->). by exists (String c a), b.
  - intros (a & b & ->). induction a as [|c a IH].
    + rewrite sapp_nil_l. destruct (p +:+ b) as [|c r] eqn:E.
      * rewrite contains_nil, <- E. apply prefix_app.
      * rewrite contains_cons, <- E, prefix_app. reflexivity.
    + rewrite sapp_cons, contains_cons, IH. apply orb_true_r.
Qed.

End StrFacts.
Import StrFacts.

(** ** Dicts *)

Module DictFacts.

Lemma dict_get_set_eq {A} (d : dict A) k v : dict_get (dict_set d k v) k = Some v.
Proof.
  induction d as [|[k' v'] d IH]; simpl.
  - by rewrite String.eqb_refl.
  - destruct (String.eqb_spec k' k) as [->|Hne]; simpl.
    + by rewrite String.eqb_refl.
    + destruct (String.eqb_spec k' k); [done|]. exact IH.
Qed.

Lemma dict_get_set_ne {A} (d : dict A) k k' v :
  k ≠ k' → dict_get (dict_set d k v) k' = dict_get d k'.
Proof.
  intros Hne. induction d as [|[k0 v0] d IH]; simpl.
  - destruct (String.eqb_spec k k'); [done|]. done.
  - destruct (String.eqb_spec k0 k) as [->|Hk]; simpl.
    + destruct (String.eqb_spec k k'); [done|]. done.
    + destruct (String.eqb_spec k0 k'); [done|]. exact IH.
Qed.

Lemma dict_get_none {A} (d : dict A) k : k ∉ dict_keys d → dict_get d k = None.
Proof.
  induction d as [|[k' v'] d IH]; simpl; intros Hk; [done|].
  destruct (String.eqb_spec k' k) as [->|Hne].
  - exfalso. apply Hk. by left.
  - apply IH. intros ?. apply Hk. by right.
Qed.

Lemma dict_merge_get {A} (b : dict A) k : ∀ a,
  NoDup (dict_keys b) →
  dict_get (dict_merge a b) k
  = match dict_get b k with
    | Some v => Some v
    | None => dict_get a k
    end.
Proof.
  unfold dict_merge.
  induction b as [|[k0 v0] b IH]; simpl; intros a Hnd; [done|].
  apply NoDup_cons in Hnd as [Hk0 Hnd]. rewrite (IH _ Hnd).
  destruct (String.eqb_spec k0 k) as [->|Hne].
  - by rewrite (dict_get_none b k Hk0), dict_get_set_eq.
  - by rewrite (dict_get_set_ne a k0 k v0 Hne).
Qed.

End DictFacts.
Import DictFacts.

(** ** The matcher against a declarative reading of the patterns *)

Module ReFacts.

Lemma sem_consumes r : ∀ s g s' g', sem r s g s' g' → ∃ w, s = w +:+ s'.
Proof.
  induction r as [c|p|p|p|r IH|r1 IH1 r2 IH2|r IH|]; simpl; intros s g s' g'.
  - intros [-> _]. by exists (String c "").
  - intros (w & -> & _). by exists w.
  - intros (w & -> & _). by exists w.
  - intros (w & -> & _). by exists w.
  - intros [H|[-> _]]; [by eapply IH|by exists ""].
  - intros (sm & gm & H1 & H2).
    destruct (IH1 _ _ _ _ H1) as [w1 ->]. destruct (IH2 _ _ _ _ H2) as [w2 ->].
    exists (w1 +:+ w2). by rewrite sapp_assoc.
  - intros (g0 & w & _ & -> & _). by exists w.
  - intros [-> _]. by exists "".
Qed.

Section Sound.
Context {A : Type}.
Implicit Types (k : option ascii → string → option A).

Lemma star_sound p s : ∀ prev k a,
  star p prev s k = Some a →
  ∃ w prev' s', s = w +:+ s' ∧ all_chars p w = true ∧ k prev' s' = Some a.
Proof.
  induction s as [|c s IH]; simpl; intros prev k a H.
  - by exists "", prev, "".
  - destruct (p c) eqn:Hc; [|by exists "", prev, (String c s)].
    destruct (star p (Some c) s k) as [a'|] eqn:E.
    + inversion H; subst a'.
      destruct (IH _ _ _ E) as (w & prev' & s' & -> & Hw & Hk).
      exists (String c w), prev', s'. simpl. by rewrite Hc, Hw.
    + by exists "", prev, (String c s).
Qed.

Lemma star_lazy_sound p s : ∀ prev k a,
  star_lazy p prev s k = Some a →
  ∃ w prev' s', s = w +:+ s' ∧ all_chars p w = true ∧ k prev' s' = Some a.
Proof.
  induction s as [|c s IH]; simpl; intros prev k a H.
  - destruct (k prev "") eqn:E; [|done]. inversion H; subst.
    by exists "", prev, "".
  - destruct (k prev (String c s)) eqn:E.
    { inversion H; subst. by exists "", prev, (String c s). }
    destruct (p c) eqn:Hc; [|done].
    destruct (IH _ _ _ H) as (w & prev' & s' & -> & Hw & Hk).
    exists (String c w), prev', s'. simpl. by rewrite Hc, Hw.
Qed.

(** Whatever the matcher hands to its continuation is a match in the
    sense of [sem]. *)
Lemma run_sound r : ∀ prev s g (k : cont) (a : A),
  run r prev s g k = Some a →
  ∃ prev' s' g', sem r s g s' g' ∧ k prev' s' g' = Some a.
Proof.
  induction r as [c|p|p|p|r IH|r1 IH1 r2 IH2|r IH|]; simpl;
    intros prev s g k a H.
  - destruct s as [|c' s]; [done|]. unfold is_char in H.
    destruct (Ascii.eqb_spec c c') as [->|]; [|done]. by exists (Some c'), s, g.
  - apply star_sound in H as (w & prev' & s' & -> & Hw & Hk).
    exists prev', s', g. eauto.
  - destruct s as [|c s]; [done|]. destruct (p c) eqn:Hc; [|done].
    apply star_sound in H as (w & prev' & s' & -> & Hw & Hk).
    exists prev', s', g. split; [|done]. exists (String c w).
    simpl. by rewrite Hc, Hw.
  - apply star_lazy_sound in H as (w & prev' & s' & -> & Hw & Hk).
    exists prev', s', g. eauto.
  - destruct (run r prev s g k) as [a'|] eqn:E.
    + inversion H; subst a'.
      destruct (IH _ _ _ _ _ E) as (prev' & s' & g' & Hs & Hk).
      exists prev', s', g'. eauto.
    + exists prev, s, g. eauto.
  - apply IH1 in H as (pm & sm & gm & H1 & H).
    apply IH2 in H as (prev' & s' & g' & H2 & Hk).
    exists prev', s', g'. eauto.
  - apply IH in H as (prev' & s' & g0 & Hs & Hk).
    destruct (sem_consumes _ _ _ _ _ Hs) as [w ->].
    rewrite str_take_consumed in Hk.
    exists prev', s', (Some w). split; [|done]. by exists g0, w.
  - destruct (xorb _ _); [|done]. by exists prev, s, g.
Qed.
End Sound.

(** A match at a position splits the text there into [group0] and
    [after], and is a match in the sense of [sem]. *)
Lemma match_at_sound r prev s m :
  match_at r prev s = Some m →
  ∃ g', sem r s None (after m) g' ∧ group1 m = default "" g'
        ∧ s = group0 m +:+ after m.
Proof.
  unfold match_at. intros H.
  apply run_sound in H as (prev' & s' & g' & Hs & Hk).
  inversion Hk; subst m; simpl. exists g'. split_and!; [done..|].
  destruct (sem_consumes _ _ _ _ _ Hs) as [w ->].
  by rewrite str_take_consumed.
Qed.

(** Every match of [finditer] is a match at some position of the text. *)
Lemma finditer_from_sound r s : ∀ prev skip m,
  m ∈ finditer_from r prev s skip →
  ∃ pre prev' t, s = pre +:+ t ∧ match_at r prev' t = Some m.
Proof.
  induction s as [|c s IH]; intros prev skip m; simpl.
  - destruct skip; [|by intros ?%elem_of_nil].
    destruct (match_at r prev "") as [m'|] eqn:E; [|by intros ?%elem_of_nil].
    intros ->%list_elem_of_singleton. by exists "", prev, "".
  - destruct skip as [|n].
    + destruct (match_at r prev (String c s)) as [m'|] eqn:E.
      * intros [->|Hin]%elem_of_cons; [by exists "", prev, (String c s)|].
        destruct (IH _ _ _ Hin) as (pre & prev' & t & -> & Hm).
        by exists (String c pre), prev', t.
      * intros Hin. destruct (IH _ _ _ Hin) as (pre & prev' & t & -> & Hm).
        by exists (String c pre), prev', t.
    + intros Hin. destruct (IH _ _ _ Hin) as (pre & prev' & t & -> & Hm).
      by exists (String c pre), prev', t.
Qed.

Lemma finditer_sound r s m :
  m ∈ finditer r s →
  ∃ pre g', s = pre +:+ group0 m +:+ after m
            ∧ sem r (group0 m +:+ after m) None (after m) g'
            ∧ group1 m = default "" g'.
Proof.
  intros (pre & prev' & t & -> & Hm)%finditer_from_sound.
  apply match_at_sound in Hm as (g' & Hs & Hg & ->). by exists pre, g'.
Qed.

(** The equations of [run] *)

Section Equations.
Context {A : Type}.
Implicit Types (k : @cont A).

Lemma run_cat r1 r2 prev s g k :
  run (r1 ⋅ r2) prev s g k
  = run r1 prev s g (λ prev' s' g', run r2 prev' s' g' k).
Proof. reflexivity. Qed.

Lemma run_lit c prev s g k : run (Lit c) prev (String c s) g k = k (Some c) s g.
Proof. simpl. unfold is_char. by rewrite Ascii.eqb_refl. Qed.

Lemma run_star p prev s g k :
  run (Star p) prev s g k = star p prev s (λ prev' s', k prev' s' g).
Proof. reflexivity. Qed.

Lemma run_plus p c prev s g k :
  p c = true →
  run (Plus p) prev (String c s) g k
  = star p (Some c) s (λ prev' s', k prev' s' g).
Proof. intros H. simpl. by rewrite H. Qed.

Lemma run_grp r prev s g k :
  run (Grp r) prev s g k
  = run r prev s g
      (λ prev' s' _,
         k prev' s' (Some (str_take (String.length s - String.length s') s))).
Proof. reflexivity. Qed.

Lemma run_opt_skip r prev s g k :
  run r prev s g k = None → run (Opt r) prev s g k = k prev s g.
Proof. intros H. simpl. by rewrite H. Qed.
End Equations.

Lemma lit_fails {A} c r prev s g (k : @cont A) :
  (∀ s', s ≠ String c s') → run (Lit c ⋅ r) prev s g k = None.
Proof.
  intros Hs. cbn [run]. destruct s as [|c' s']; [done|]. unfold is_char.
  destruct (Ascii.eqb_spec c c') as [->|]; [|done]. by destruct (Hs s').
Qed.

End ReFacts.
Import ReFacts.

(** ** What [_extract_keys] returns *)

Module KeysFacts.

Lemma word_not_space c : is_word c = true → is_space c = false.
Proof. destruct c as [[] [] [] [] [] [] [] []]; by vm_compute. Qed.

Lemma word_not_bar c : is_word c = true → is_char "|" c = false.
Proof. destruct c as [[] [] [] [] [] [] [] []]; by vm_compute. Qed.

Lemma word_not_dot c : is_word c = true → is_char "." c = false.
Proof. destruct c as [[] [] [] [] [] [] [] []]; by vm_compute. Qed.

Lemma space_not_word c : is_space c = true → is_word c = false.
Proof. destruct c as [[] [] [] [] [] [] [] []]; by vm_compute. Qed.

Lemma word_or_dot_not_bar c : word_or_dot c = true → is_char "|" c = false.
Proof. destruct c as [[] [] [] [] [] [] [] []]; by vm_compute. Qed.

(** [split_head] returns the part before the first separator. *)
Lemma split_head_spec sep s :
  ∃ rest, s = split_head sep s +:+ rest
          ∧ (rest = "" ∨ ∃ r, rest = String sep r)
          ∧ all_chars (λ c, negb (is_char sep c)) (split_head sep s) = true.
Proof.
  induction s as [|c s (rest & Hs & Hr & Ha)]; simpl.
  - exists "". auto.
  - unfold is_char at 1 3. destruct (Ascii.eqb_spec sep c) as [->|Hne].
    + exists (String c s). split_and!; [done|eauto|done].
    + exists rest. split_and!; [by rewrite sapp_cons, <- Hs|done|].
      simpl. unfold is_char at 1.
      destruct (Ascii.eqb_spec sep c); [done|]. done.
Qed.

Lemma split_head_id sep s :
  all_chars (λ c, negb (is_char sep c)) s = true → split_head sep s = s.
Proof.
  induction s as [|c s IH]; [done|]. simpl.
  intros [Hc Hs]%andb_prop. apply negb_true_iff in Hc. rewrite Hc.
  by rewrite IH.
Qed.

Lemma lstrip_id s : all_chars (λ c, negb (is_space c)) s = true → lstrip s = s.
Proof.
  destruct s as [|c s]; [done|]. simpl.
  intros [Hc _]%andb_prop. apply negb_true_iff in Hc. by rewrite Hc.
Qed.

Lemma rstrip_id s : all_chars (λ c, negb (is_space c)) s = true → rstrip s = s.
Proof.
  induction s as [|c s IH]; [done|]. simpl.
  intros [Hc Hs]%andb_prop. apply negb_true_iff in Hc.
  rewrite (IH Hs), Hc. by destruct s.
Qed.

Lemma strip_word s : all_chars is_word s = true → strip s = s.
Proof.
  intros H. assert (all_chars (λ c, negb (is_space c)) s = true) as Hn.
  { eapply all_chars_impl; [|exact H]. intros c Hc.
    by rewrite (word_not_space _ Hc). }
  unfold strip. by rewrite (lstrip_id _ Hn), (rstrip_id _ Hn).
Qed.

(** On a group of [[\w.]+], [normalise] gives the run of word characters
    up to the first dot. *)
Lemma normalise_word_or_dot grp :
  all_chars word_or_dot grp = true →
  ∃ rest, grp = normalise grp +:+ rest
          ∧ (rest = "" ∨ ∃ r, rest = String "." r)
          ∧ all_chars is_word (normalise grp) = true.
Proof.
  intros H. unfold normalise.
  rewrite (split_head_id "|" grp).
  2:{ eapply all_chars_impl; [|exact H]. intros c Hc.
      by rewrite (word_or_dot_not_bar _ Hc). }
  destruct (split_head_spec "." grp) as (rest & Hs & Hr & Ha).
  assert (all_chars is_word (split_head "." grp) = true) as Hw.
  { rewrite Hs in H. rewrite all_chars_app in H.
    apply andb_prop in H as [H _]. revert H Ha.
    generalize (split_head "." grp) as w.
    induction w as [|c w IH]; [done|]. cbn [all_chars].
    intros [Hc Hw]%andb_prop [Hd Hw']%andb_prop.
    rewrite (IH Hw Hw'). unfold word_or_dot in Hc.
    apply negb_true_iff in Hd. rewrite Hd, orb_false_r in Hc.
    by rewrite Hc. }
  rewrite (strip_word _ Hw). eauto.
Qed.

Lemma normalise_word w : all_chars is_word w = true → normalise w = w.
Proof.
  intros H. unfold normalise.
  rewrite (split_head_id "|" w).
  2:{ eapply all_chars_impl; [|exact H]. intros c Hc.
      by rewrite (word_not_bar _ Hc). }
  rewrite (split_head_id "." w).
  2:{ eapply all_chars_impl; [|exact H]. intros c Hc.
      by rewrite (word_not_dot _ Hc). }
  by apply strip_word.
Qed.

End KeysFacts.
Import KeysFacts.

(** ** The three syntaxes a returned name comes from *)

Module Occurs.

Ltac sem_destruct :=
  repeat match goal with
         | H : ∃ _, _ |- _ => destruct H
         | H : _ ∧ _ |- _ => destruct H
         end; subst.

Ltac str_norm :=
  repeat (rewrite sapp_cons || rewrite sapp_assoc || rewrite sapp_nil_l).

Lemma format_field_inv s g s' g' :
  sem format_field s g s' g' →
  ∃ w, s = "{" +:+ w +:+ "}" +:+ s' ∧ all_chars is_word w = true
       ∧ w ≠ "" ∧ g' = Some w.
Proof.
  simpl. intros H. sem_destruct.
  match goal with H : _ +:+ _ = _ +:+ _ |- _ => apply sapp_inv_tail in H; subst end.
  eexists. split_and!; [|eassumption|eassumption|reflexivity].
  by str_norm.
Qed.

Lemma filtered_name_inv s g s' g' :
  sem filtered_name s g s' g' →
  ∃ w, s = w +:+ "|" +:+ s' ∧ all_chars is_word w = true
       ∧ w ≠ "" ∧ g' = Some w.
Proof.
  simpl. intros H. sem_destruct.
  match goal with H : _ +:+ _ = _ +:+ _ |- _ => apply sapp_inv_tail in H; subst end.
  eexists. split_and!; [|eassumption|eassumption|reflexivity].
  by str_norm.
Qed.

Lemma control_structure_inv s g s' g' :
  sem control_structure s g s' g' → ∃ mid, s = "{%" +:+ mid +:+ "%}" +:+ s'.
Proof.
  simpl. intros H. sem_destruct.
  match goal with H : all_chars dot ?w = true |- _ => by exists w end.
Qed.

Lemma spaces_head_not_word ws :
  all_chars is_space ws = true → word_at (next_char ws) = false.
Proof.
  destruct ws as [|c ws]; [done|]. simpl.
  intros [Hc _]%andb_prop. by apply space_not_word.
Qed.

Lemma jinja_expression_inv s g s' g' :
  sem jinja_expression s g s' g' →
  ∃ ws grp tail,
    s = "{{" +:+ ws +:+ grp +:+ tail +:+ "}}" +:+ s'
    ∧ all_chars is_space ws = true ∧ all_chars word_or_dot grp = true
    ∧ word_at (next_char tail) = false ∧ g' = Some grp.
Proof.
  simpl. intros H.
  repeat match goal with
         | H : ∃ _, _ |- _ => destruct H
         | H : _ ∧ _ |- _ => destruct H
         | H : _ ∨ _ |- _ => destruct H
         end; subst.
  all: match goal with
       | H : _ +:+ _ = _ +:+ _ |- _ => apply sapp_inv_tail in H; subst
       end.
  all: match goal with
       | Hs : all_chars is_space ?ws = true,
         Hg : all_chars word_or_dot ?grp = true |-
           context [ ?ws +:+ ?grp +:+ ?rest ] =>
           exists ws, grp
       end.
  - match goal with
    | H1 : all_chars word_or_space ?a = true,
      H2 : all_chars not_paren ?b = true,
      H3 : all_chars is_space ?c = true |- context [ String "|" (?a +:+ _) ] =>
        exists (String "|" (a +:+ String "." (b +:+ String "(" (String ")" c))))
    end.
    split_and!; [by str_norm|done..].
  - match goal with
    | H2 : all_chars not_paren ?b = true,
      H3 : all_chars is_space ?c = true |- context [ String "." (?b +:+ _) ] =>
        exists (String "." (b +:+ String "(" (String ")" c)))
    end.
    split_and!; [by str_norm|done..].
  - match goal with
    | H1 : all_chars word_or_space ?a = true,
      H3 : all_chars is_space ?c = true |- context [ String "|" (?a +:+ ?c +:+ _) ] =>
        exists (String "|" (a +:+ c))
    end.
    split_and!; [by str_norm|done..].
  - match goal with
    | H3 : all_chars is_space ?c = true |- context [ _ +:+ ?c +:+ String "}" _ ] =>
        exists c
    end.
    split_and!; [by str_norm|done|done|by apply spaces_head_not_word|done].
Qed.

Lemma jinja_pass_provenance t m :
  m ∈ finditer jinja_expression t → provenance t (normalise (group1 m)).
Proof.
  intros (pre & g' & Ht & Hs & Hg)%finditer_sound.
  apply jinja_expression_inv in Hs
    as (ws & grp & tail & Hm & Hws & Hgrp & Htail & ->).
  simpl in Hg. rewrite Hg.
  destruct (normalise_word_or_dot grp Hgrp) as (rest & Hn & Hrest & Hw).
  split; [done|]. left. exists ws, (rest +:+ tail). split_and!; [done| |].
  - destruct Hrest as [->|[r ->]]; [by rewrite sapp_nil_l|done].
  - exists pre, (after m). rewrite Ht, Hm. rewrite Hn at 1. by str_norm.
Qed.

Lemma format_pass_provenance t m :
  m ∈ finditer format_field t → provenance t (normalise (group1 m)).
Proof.
  intros (pre & g' & Ht & Hs & Hg)%finditer_sound.
  apply format_field_inv in Hs as (w & Hm & Hw & Hne & ->).
  simpl in Hg. rewrite Hg, (normalise_word _ Hw).
  split; [done|]. right; left. split; [done|].
  exists pre, (after m). rewrite Ht, Hm. by str_norm.
Qed.

Lemma control_pass_provenance t m var :
  m ∈ finditer control_structure t →
  var ∈ findall filtered_name (group0 m) →
  provenance t (normalise var).
Proof.
  intros (pre & g' & Ht & Hs & Hg)%finditer_sound.
  apply control_structure_inv in Hs as (mid & Hm).
  assert (group0 m = "{%" +:+ mid +:+ "%}") as Hblock.
  { apply (sapp_inv_tail _ _ (after m)). rewrite Hm. by str_norm. }
  unfold findall. intros (m' & -> & Hin)%list_elem_of_fmap.
  apply finditer_sound in Hin as (pre' & g2 & Hb & Hs' & Hg').
  apply filtered_name_inv in Hs' as (w & Hm' & Hw & Hne & ->).
  simpl in Hg'. rewrite Hg', (normalise_word _ Hw).
  split; [done|]. right; right. split; [done|]. exists mid. split.
  - exists pre, (after m). by rewrite <- Hblock.
  - rewrite <- Hblock, Hb, Hm'.
    apply infix_app_l. exists "", (after m'). by str_norm.
Qed.

End Occurs.
Import Occurs.

(** ** The matches as the matcher delimits them *)

Module Origin.

Section Inversion.
Context {A : Type}.
Implicit Types (k : @cont A).

Lemma run_lit_inv c prev s g k a :
  run (Lit c) prev s g k = Some a →
  ∃ s', s = String c s' ∧ k (Some c) s' g = Some a.
Proof.
  simpl. destruct s as [|c' s']; [done|]. unfold is_char.
  destruct (Ascii.eqb_spec c c') as [->|]; [|done]. by exists s'.
Qed.

Lemma run_plus_inv p prev s g k a :
  run (Plus p) prev s g k = Some a →
  ∃ c w prev' s', s = String c w +:+ s' ∧ all_chars p (String c w) = true
                  ∧ k prev' s' g = Some a.
Proof.
  simpl. destruct s as [|c s1]; [done|]. destruct (p c) eqn:Hc; [|done].
  intros (w & prev' & s' & -> & Hw & Hk)%star_sound.
  exists c, w, prev', s'. simpl. by rewrite Hc, Hw.
Qed.

Lemma run_star_lazy p prev s g k :
  run (StarLazy p) prev s g k = star_lazy p prev s (λ prev' s', k prev' s' g).
Proof. reflexivity. Qed.

Lemma run_bnd_inv prev s g k a :
  run Bnd prev s g k = Some a →
  xorb (word_at prev) (word_at (next_char s)) = true ∧ k prev s g = Some a.
Proof. simpl. by destruct (xorb _ _). Qed.

(** A lazy repetition stops at the first place where its continuation
    accepts. *)
Lemma star_lazy_first p s : ∀ prev (k : option ascii → string → option A) a,
  star_lazy p prev s k = Some a →
  ∃ w s', s = w +:+ s' ∧ all_chars p w = true
          ∧ k (last_of prev w) s' = Some a
          ∧ ∀ w1 w2, w = w1 +:+ w2 → w2 ≠ "" →
                     k (last_of prev w1) (w2 +:+ s') = None.
Proof.
  induction s as [|c s IH]; intros prev k a; simpl.
  - destruct (k prev "") eqn:E; [|done]. intros [= ->].
    exists "", "". split_and!; [done..|].
    intros [|] [|] ?; done.
  - destruct (k prev (String c s)) eqn:E.
    { intros [= ->]. exists "", (String c s). split_and!; [done..|].
      intros [|] [|] ?; done. }
    destruct (p c) eqn:Hc; [|done].
    intros (w & s' & -> & Hw & Hk & Hmin)%IH.
    exists (String c w), s'. split_and!; [done|by simpl; rewrite Hc|done|].
    intros [|c1 w1] w2 Hsplit Hne.
    + rewrite sapp_nil_l in Hsplit. subst w2. exact E.
    + rewrite sapp_cons in Hsplit. inversion Hsplit; subst. simpl.
      by apply Hmin.
Qed.
End Inversion.

Lemma finditer_from_prev r s : ∀ prev skip m,
  m ∈ finditer_from r prev s skip →
  ∃ pre t, s = pre +:+ t ∧ match_at r (last_of prev pre) t = Some m.
Proof.
  induction s as [|c s IH]; intros prev skip m; simpl.
  - destruct skip; [|by intros ?%elem_of_nil].
    destruct (match_at r prev "") as [m'|] eqn:E; [|by intros ?%elem_of_nil].
    intros ->%list_elem_of_singleton. by exists "", "".
  - destruct skip as [|n].
    + destruct (match_at r prev (String c s)) as [m'|] eqn:E.
      * intros [->|Hin]%elem_of_cons; [by exists "", (String c s)|].
        destruct (IH _ _ _ Hin) as (pre & t & -> & Hm).
        by exists (String c pre), t.
      * intros Hin. destruct (IH _ _ _ Hin) as (pre & t & -> & Hm).
        by exists (String c pre), t.
    + intros Hin. destruct (IH _ _ _ Hin) as (pre & t & -> & Hm).
      by exists (String c pre), t.
Qed.

(** A match of the pattern of the control structures runs on one line
    from [{%] to the first [%}]. *)
Lemma control_structure_shape prev s m :
  match_at control_structure prev s = Some m →
  ∃ mid, s = "{%" +:+ mid +:+ "%}" +:+ after m
         ∧ group0 m = "{%" +:+ mid +:+ "%}"
         ∧ all_chars dot mid = true ∧ ¬ infix "%}" mid.
Proof.
  unfold match_at, control_structure.
  rewrite run_cat. intros (s1 & -> & H)%run_lit_inv.
  rewrite run_cat in H. apply run_lit_inv in H as (s2 & -> & H).
  rewrite run_cat, run_star_lazy in H.
  apply star_lazy_first in H as (mid & s3 & -> & Hmid & H & Hmin).
  cbv beta in H. rewrite run_cat in H.
  apply run_lit_inv in H as (s4 & -> & H). apply run_lit_inv in H as (s5 & -> & H).
  assert (String "{" (String "%" (mid +:+ String "%" (String "}" s5)))
          = ("{%" +:+ mid +:+ "%}") +:+ s5) as E by (by str_norm).
  assert (∀ n, n = String.length
                     (String "{" (String "%" (mid +:+ String "%" (String "}" s5))))
                   - String.length s5 →
               str_take n (String "{" (String "%" (mid +:+ String "%" (String "}" s5))))
               = "{%" +:+ mid +:+ "%}") as Hg.
  { intros n ->. rewrite E. apply str_take_consumed. }
  injection H as <-. exists mid.
  split_and!; [by str_norm|by apply Hg|done|].
  intros (a & b & ->).
  specialize (Hmin a ("%}" +:+ b) eq_refl ltac:(done)).
  cbv beta in Hmin. rewrite !sapp_cons, sapp_nil_l in Hmin.
  by rewrite run_cat, run_lit, run_lit in Hmin.
Qed.

(** A match of the pattern of the filtered names is a whole word before
    a bar and a word character. *)
Lemma filtered_name_shape prev s m :
  match_at filtered_name prev s = Some m →
  ∃ w c rest, s = w +:+ "|" +:+ String c rest
              ∧ all_chars is_word w = true ∧ w ≠ ""
              ∧ group1 m = w
              ∧ word_at prev = false ∧ is_word c = true.
Proof.
  unfold match_at, filtered_name.
  rewrite run_cat. intros [Hb H]%run_bnd_inv.
  rewrite run_cat, run_grp in H.
  apply run_plus_inv in H as (c0 & w & prev' & s2 & -> & Hw & H).
  cbv beta in H. rewrite run_cat in H.
  apply run_lit_inv in H as (s3 & -> & H).
  apply run_bnd_inv in H as [Hb' H].
  assert (group1 m = String c0 w) as Hg.
  { rewrite <- (str_take_consumed (String c0 w) (String "|" s3)).
    by injection H as <-. }
  change (word_at (Some "|"%char)) with false in Hb'. simpl xorb in Hb'.
  destruct s3 as [|c rest]; [done|]. simpl in Hb'.
  exists (String c0 w), c, rest. split_and!; [by str_norm|done|done|done| |done].
  rewrite sapp_cons in Hb. simpl in Hb, Hw. apply andb_prop in Hw as [Hc0 _].
  rewrite Hc0 in Hb. by destruct (word_at prev).
Qed.



(** A match of the pattern of the expressions: the dotted name, and after
    it a filter, a call and white space. *)
Lemma jinja_expression_shape s g s' g' :
  sem jinja_expression s g s' g' →
  ∃ ws grp tail,
    s = "{{" +:+ ws +:+ grp +:+ tail +:+ "}}" +:+ s'
    ∧ expression_tail tail
    ∧ all_chars is_space ws = true ∧ all_chars word_or_dot grp = true
    ∧ grp ≠ "" ∧ g' = Some grp.
Proof.
  simpl. intros H.
  repeat match goal with
         | H : ∃ _, _ |- _ => destruct H
         | H : _ ∧ _ |- _ => destruct H
         | H : _ ∨ _ |- _ => destruct H
         end; subst.
  all: match goal with
       | H : _ +:+ _ = _ +:+ _ |- _ => apply sapp_inv_tail in H; subst
       end.
  all: match goal with
       | Hs : all_chars is_space ?ws = true,
         Hg : all_chars word_or_dot ?grp = true |-
           context [ ?ws +:+ ?grp +:+ ?rest ] =>
           exists ws, grp
       end.
  - match goal with
    | H1 : all_chars word_or_space ?a = true,
      H2 : all_chars not_paren ?b = true,
      H3 : all_chars is_space ?c = true |- context [ String "|" (?a +:+ _) ] =>
        exists (("|" +:+ a) +:+ ("." +:+ b +:+ "()") +:+ c);
        split_and!; [by str_norm| |done..];
        exists ("|" +:+ a), ("." +:+ b +:+ "()"), c;
        split_and!; [done|right; by exists a|right; by exists b|done]
    end.
  - match goal with
    | H2 : all_chars not_paren ?b = true,
      H3 : all_chars is_space ?c = true |- context [ String "." (?b +:+ _) ] =>
        exists (("." +:+ b +:+ "()") +:+ c);
        split_and!; [by str_norm| |done..];
        exists "", ("." +:+ b +:+ "()"), c;
        split_and!; [done|by left|right; by exists b|done]
    end.
  - match goal with
    | H1 : all_chars word_or_space ?a = true,
      H3 : all_chars is_space ?c = true |- context [ String "|" (?a +:+ ?c +:+ _) ] =>
        exists (("|" +:+ a) +:+ c);
        split_and!; [by str_norm| |done..];
        exists ("|" +:+ a), "", c;
        split_and!; [done|right; by exists a|by left|done]
    end.
  - match goal with
    | H3 : all_chars is_space ?c = true |- context [ _ +:+ ?c +:+ String "}" _ ] =>
        exists c;
        split_and!; [by str_norm| |done..];
        exists "", "", c;
        split_and!; [done|by left|by left|done]
    end.
Qed.


Lemma jinja_pass_origin t m :
  m ∈ finditer jinja_expression t →
  names_expression (normalise (group1 m)) t.
Proof.
  intros (pre & g' & Ht & Hs & Hg)%finditer_sound.
  apply jinja_expression_shape in Hs
    as (ws & grp & tail & Hm & Htail & Hws & Hgrp & Hne & ->).
  simpl in Hg. rewrite Hg.
  destruct (normalise_word_or_dot grp Hgrp) as (rest & Hn & Hrest & Hw).
  exists ws, rest, tail. split_and!; [done| |done|].
  - destruct Hrest as [->|[r ->]]; [by left|right]. exists r. split; [done|].
    rewrite Hn, all_chars_app in Hgrp. by apply andb_prop in Hgrp as [_ Hr].
  - exists pre, (after m). rewrite Ht, Hm. rewrite Hn at 1. by str_norm.
Qed.

Lemma format_pass_origin t m :
  m ∈ finditer format_field t → occurs_format (normalise (group1 m)) t.
Proof.
  intros (pre & g' & Ht & Hs & Hg)%finditer_sound.
  apply format_field_inv in Hs as (w & Hm & Hw & Hne & ->).
  simpl in Hg. rewrite Hg, (normalise_word _ Hw).
  split; [done|].
  exists pre, (after m). rewrite Ht, Hm. by str_norm.
Qed.

Lemma control_pass_origin t m var :
  m ∈ finditer control_structure t →
  var ∈ findall filtered_name (group0 m) →
  startswith var "end" = false → var ∉ keywords →
  filtered_in_structure (normalise var) t.
Proof.
  intros Hm Hvar Hend Hkey.
  pose proof Hm as (pre & g' & Ht & _ & _)%finditer_sound.
  apply finditer_from_prev in Hm as (pre0 & t0 & _ & Hm).
  apply control_structure_shape in Hm as (mid & _ & Hblock & Hdot & Hfirst).
  unfold findall in Hvar. apply list_elem_of_fmap in Hvar as (m' & -> & Hin).
  apply finditer_from_prev in Hin as (before & t1 & Hb & Hm').
  apply filtered_name_shape in Hm' as (w & c & rest & -> & Hw & Hne & Hg & Hprev & Hc).
  rewrite Hg in *. rewrite (normalise_word _ Hw).
  exists mid, before, c, rest. split_and!; try done.
  - exists pre, (after m). by rewrite <- Hblock.
  - by rewrite <- Hblock, Hb.
Qed.

End Origin.
Import Origin.

Module ExtractKeys.

Lemma acc_ok_init t : acc_ok t (Acc [] ∅).
Proof.
  split; simpl.
  - constructor.
  - intros x. split; [by intros ?%not_elem_of_empty|by intros ?%elem_of_nil].
  - by intros x ?%elem_of_nil.
  - by intros x ?%elem_of_nil.
Qed.

Lemma add_var_ok t var a :
  acc_ok t a → provenance t (normalise var) → acc_ok t (add_var var a).
Proof.
  intros [Hnd Hseen Hctx Hprov] Hvar. unfold add_var. fold (normalise var).
  case_decide as Hd; [|by split]. destruct Hd as [Hfresh Hout].
  split; simpl.
  - apply NoDup_app. split_and!; [done| |apply NoDup_singleton].
    intros x Hx ->%list_elem_of_singleton. by apply Hfresh, Hseen.
  - intros x. rewrite elem_of_union, elem_of_singleton, elem_of_app,
      list_elem_of_singleton, Hseen. tauto.
  - intros x [Hx| ->%list_elem_of_singleton]%elem_of_app; auto.
  - intros x [Hx| ->%list_elem_of_singleton]%elem_of_app; auto.
Qed.

Lemma fold_left_ok {A B} (P : A → Prop) (f : A → B → A) (l : list B) :
  (∀ a x, x ∈ l → P a → P (f a x)) → ∀ a, P a → P (fold_left f l a).
Proof.
  induction l as [|x l IH]; simpl; intros Hf a Ha; [done|].
  apply IH.
  - intros a' y Hy. apply Hf. by right.
  - apply Hf; [by left|done].
Qed.

Lemma add_filtered_ok t m a :
  m ∈ finditer control_structure t → acc_ok t a → acc_ok t (add_filtered m a).
Proof.
  intros Hm. unfold add_filtered. apply fold_left_ok.
  intros a' var Hvar Ha'.
  destruct (negb (startswith var "end") && negb (bool_decide (var ∈ keywords)));
    [|done].
  apply add_var_ok; [done|]. by eapply control_pass_provenance.
Qed.

Lemma extract_keys_ok t :
  ∃ a, _extract_keys t = variables a ∧ acc_ok t a.
Proof.
  unfold _extract_keys. eexists. split; [reflexivity|].
  apply fold_left_ok; [intros; by apply add_filtered_ok|].
  apply fold_left_ok.
  { intros a m Hm Ha. apply add_var_ok; [done|].
    by apply format_pass_provenance. }
  apply fold_left_ok.
  { intros a m Hm Ha. apply add_var_ok; [done|].
    by apply jinja_pass_provenance. }
  apply acc_ok_init.
Qed.

Lemma acc_origin_init t : acc_origin t (Acc [] ∅).
Proof. by intros x ?%elem_of_nil. Qed.

Lemma add_var_origin t var a :
  acc_origin t a → (normalise var ≠ "" → origin t (normalise var)) →
  acc_origin t (add_var var a).
Proof.
  intros Ha Hvar. unfold add_var. fold (normalise var).
  case_decide as Hd; [|done]. simpl.
  intros x [Hx| ->%list_elem_of_singleton]%elem_of_app; auto.
Qed.

Lemma add_filtered_origin t m a :
  m ∈ finditer control_structure t → acc_origin t a →
  acc_origin t (add_filtered m a).
Proof.
  intros Hm. unfold add_filtered. apply fold_left_ok.
  intros a' var Hvar Ha'.
  destruct (startswith var "end") eqn:Hend; [done|].
  destruct (bool_decide (var ∈ keywords)) eqn:Hkey; [done|]. simpl.
  apply bool_decide_eq_false in Hkey.
  apply add_var_origin; [done|]. intros _. right; right.
  by eapply control_pass_origin.
Qed.

Lemma extract_keys_origin t :
  ∃ a, _extract_keys t = variables a ∧ acc_origin t a.
Proof.
  unfold _extract_keys. eexists. split; [reflexivity|].
  apply fold_left_ok; [intros; by apply add_filtered_origin|].
  apply fold_left_ok.
  { intros a m Hm Ha. apply add_var_origin; [done|]. intros _.
    right; left. by apply format_pass_origin. }
  apply fold_left_ok.
  { intros a m Hm Ha. apply add_var_origin; [done|]. intros _.
    left. by apply jinja_pass_origin. }
  apply acc_origin_init.
Qed.

(** C1, as amended: the list [_extract_keys] returns has no duplicates and
    no key of [additional_context], every name in it is a run of word
    characters, and every name in it that is not empty is the first
    component of the dotted name of a [{{ name ... }}] expression, or the
    name of a [{name}] field, or a whole word before a filter in a
    [{% ... %}] control structure that is no keyword and does not start
    with [end]. *)
Theorem extract_keys_sound (template : string) :
  NoDup (_extract_keys template)
  ∧ (∀ v, v ∈ _extract_keys template →
       (v ∉ additional_context_keys)
       ∧ word_string v
       ∧ (v ≠ "" →
          names_expression v template
          ∨ occurs_format v template
          ∨ filtered_in_structure v template)).
Proof.
  destruct (extract_keys_ok template) as (a & E & [Hnd _ Hctx Hprov]).
  destruct (extract_keys_origin template) as (a' & E' & Ho).
  rewrite E. split; [done|]. intros v Hv.
  split_and!; [by apply Hctx|by apply Hprov|].
  intros Hne. apply Ho; [|done]. by rewrite <- E', E.
Qed.

Lemma extract_keys_sound_witness :
  "user" ∈ _extract_keys "{% if x|upper %}{{ user.name|title }} {n}"
  ∧ "user" ≠ ""
  ∧ ("user" ∉ additional_context_keys)
  ∧ word_string "user"
  ∧ (names_expression "user" "{% if x|upper %}{{ user.name|title }} {n}"
     ∨ occurs_format "user" "{% if x|upper %}{{ user.name|title }} {n}"
     ∨ filtered_in_structure "user" "{% if x|upper %}{{ user.name|title }} {n}").
Proof.
  assert ("user" ∈ _extract_keys "{% if x|upper %}{{ user.name|title }} {n}")
    as H.
  { vm_compute. by left. }
  assert ("user" ≠ "") as Hne by done.
  split; [exact H|]. split; [exact Hne|].
  destruct (proj2 (extract_keys_sound
                     "{% if x|upper %}{{ user.name|title }} {n}") "user" H)
    as (Hctx & Hw & Ho).
  split; [exact Hctx|]. split; [exact Hw|]. exact (Ho Hne).
Defined.

(** C1 as written fails on a control structure: the name before the
    filter is returned, and the template has no [{x}] and no [{{]. *)
Lemma extract_keys_control_structure :
  ¬ names_in_two_dialects "{% if x|upper %}".
Proof.
  intros [H _].
  assert ("x" ∈ _extract_keys "{% if x|upper %}") as Hx.
  { vm_compute. by left. }
  destruct (H _ Hx) as [[_ Hf]|(ws & tail & _ & _ & Hj)].
  - apply contains_infix in Hf. by vm_compute in Hf.
  - apply (infix_prefix_part "{{") in Hj.
    apply contains_infix in Hj. by vm_compute in Hj.
Qed.

End ExtractKeys.

(** ** FormatString.format_string *)

Module FormatStringFacts.
Import FormatString.

Lemma extract_keys_nodup t : NoDup (_extract_keys t).
Proof.
  destruct (ExtractKeys.extract_keys_ok t) as (a & -> & [Hnd _ _ _]). done.
Qed.

Lemma dict_set_fresh {A} (d : dict A) k v :
  k ∉ dict_keys d → dict_set d k v = d ++ [(k, v)].
Proof.
  induction d as [|[k' v'] d IH]; simpl; intros Hk; [done|].
  destruct (String.eqb_spec k' k) as [->|Hne].
  - exfalso. apply Hk. by left.
  - rewrite IH; [done|]. intros ?. apply Hk. by right.
Qed.

Lemma fold_dict_set_fresh {A} (f : string → A) (keys : list string) : ∀ d,
  NoDup keys → (∀ k, k ∈ keys → k ∉ dict_keys d) →
  fold_left (λ d k, dict_set d k (f k)) keys d = d ++ map (λ k, (k, f k)) keys.
Proof.
  induction keys as [|k keys IH]; simpl; intros d Hnd Hd.
  - by rewrite app_nil_r.
  - apply NoDup_cons in Hnd as [Hk Hnd].
    rewrite dict_set_fresh by (apply Hd; by left).
    rewrite IH; [by rewrite <- app_assoc|done|].
    intros k' Hk'. unfold dict_keys. rewrite map_app. simpl.
    intros [Hin| ->%list_elem_of_singleton]%elem_of_app; [|done].
    apply (Hd k'); [by right|done].
Qed.

(** On keys without duplicates the dict comprehension is the list of
    pairs in the order of the keys. *)
Lemma saved_inputs_map keys kwargs :
  NoDup keys →
  saved_inputs keys kwargs = map (λ k, (k, DVal (get_or_empty kwargs k))) keys.
Proof.
  intros Hnd. unfold saved_inputs.
  rewrite (fold_dict_set_fresh (λ k, DVal (get_or_empty kwargs k))); [done..|].
  by intros k _ ?%elem_of_nil.
Qed.

Lemma dict_keys_map {A} (f : string → A) keys :
  dict_keys (map (λ k, (k, f k)) keys) = keys.
Proof.
  unfold dict_keys. induction keys as [|k keys IH]; simpl; [done|].
  by rewrite IH.
Qed.

Lemma dict_get_map {A} (f : string → A) keys k :
  k ∈ keys → dict_get (map (λ k, (k, f k)) keys) k = Some (f k).
Proof.
  induction keys as [|k' keys IH]; [by intros ?%elem_of_nil|]. simpl.
  destruct (String.eqb_spec k' k) as [->|Hne]; [done|].
  intros [?|?]%elem_of_cons; [congruence|auto].
Qed.

Lemma truthy_str s : truthy (PStr s) = true ↔ s ≠ "".
Proof.
  simpl. destruct (String.eqb_spec s ""); simpl; split; congruence.
Qed.

Lemma input_values_code template kwargs :
  map (λ key, py_str (get_or_empty kwargs key)) (_extract_keys template)
  = input_values template kwargs.
Proof.
  unfold input_values. apply map_ext. intros key. unfold get_or_empty.
  by destruct (dict_get kwargs key).
Qed.

(** The value [save_path] has after the save block when its print
    returns. *)
Lemma save_state_printed h template_type template save_path kwargs d :
  save_printed h template_type template save_path kwargs →
  (save_state h save_path
     (save_data template_type template (_extract_keys template) kwargs) d).1
  = Return
      (if decide (save_path = "") then ""
       else match save_raises h (path_join h (output_directory h) save_path)
                    (save_data template_type template (_extract_keys template)
                       kwargs) with
            | None => path_join h (output_directory h) save_path
            | Some _ => ""
            end).
Proof.
  unfold save_printed, save_message, save_state, write_state, rich_print.
  intros Hp. destruct (decide (save_path = "")) as [->|Hne]; [done|].
  apply truthy_str in Hne as Ht. rewrite Ht.
  destruct (save_raises h _ _) as [e|]; simpl.
  - by rewrite (Hp _ eq_refl).
  - by rewrite (Hp _ eq_refl).
Qed.

(** C2, as amended: with [template_type] "Simple", [str.format] returning
    and the print of the save block returning, [format_string] returns a
    tuple of [len(keys) + 2] elements: the string value of each extracted
    variable in extraction order (the empty string for a missing one), the
    formatted template, and the saved file path, which is the empty string
    when [save_path] is empty or the write raises and
    [os.path.join(output_directory, save_path)] when the state file is
    written. *)
Theorem format_string_simple (h : host) (template save_path : string)
    (kwargs : dict pyval) (d : disk) (formatted : string) :
  str_format h template kwargs = Return formatted →
  save_printed h "Simple" template save_path kwargs →
  ∃ saved_file_path,
    (format_string h "Simple" template save_path kwargs d).1
    = Return (input_values template kwargs ++ [formatted; saved_file_path])
    ∧ length (input_values template kwargs ++ [formatted; saved_file_path])
      = length (_extract_keys template) + 2
    ∧ (save_path = "" → saved_file_path = "")
    ∧ (write_fails h "Simple" template save_path kwargs → saved_file_path = "")
    ∧ (write_succeeds h "Simple" template save_path kwargs →
       saved_file_path = path_join h (output_directory h) save_path).
Proof.
  intros Hf Hp. unfold format_string, render. simpl String.eqb. cbv iota.
  rewrite Hf, input_values_code.
  pose proof (save_state_printed h "Simple" template save_path kwargs d Hp) as Hs.
  destruct (save_state h save_path _ d) as [saved d']. simpl in Hs. subst saved.
  unfold write_fails, write_succeeds.
  set (data := save_data _ _ _ _).
  set (joined := path_join h (output_directory h) save_path).
  eexists. split; [reflexivity|]. split.
  { unfold input_values. by rewrite length_app, length_map. }
  destruct (decide (save_path = "")) as [->|Hne].
  - split_and!; [done|by intros [? _]|by intros [? _]].
  - destruct (save_raises h joined data) as [e|] eqn:He.
    + split_and!; [done|done|]. intros [_ ?]. congruence.
    + split_and!; [done| |done]. intros [_ [e ?]]. congruence.
Qed.

Lemma format_string_simple_witness :
  (format_string (example_host true) "Simple" "Hello {name}" "state.json"
     [("name", PStr "Alice")] ∅).1
  = Return ["Alice"; "Hello Alice"; "/ComfyUI/output/state.json"].
Proof.
  destruct (format_string_simple (example_host true) "Hello {name}" "state.json"
              [("name", PStr "Alice")] ∅ "Hello Alice")
    as (saved & Heq & _ & _ & _ & Hsaved).
  - reflexivity.
  - intros text [= <-]. reflexivity.
  - rewrite Heq, Hsaved; [reflexivity|]. split; [done|reflexivity].
Defined.

(** C2 as written fails when the state file cannot be written: the tuple
    ends in the empty string, not in the save path. *)
Lemma format_string_returns_empty_path :
  ¬ returns_save_path (example_host false) "Hello {name}" "state.json"
      [("name", PStr "Alice")] ∅.
Proof.
  intros H. specialize (H "Hello Alice" eq_refl).
  vm_compute in H. congruence.
Qed.

(** C5 fails on the code: the handler of a failed write prints the text
    of the exception, and when that text holds a path with a closing tag
    the print raises [MarkupError], which [format_string] raises in place
    of returning its tuple. *)
Theorem format_string_save_failure_raises :
  save_raises (example_host false) "/ComfyUI/output/[/a].json"
    (save_data "Simple" "Hello {name}" (_extract_keys "Hello {name}")
       [("name", PStr "Alice")])
  = Some (OSError "[Errno 13] Permission denied: '/ComfyUI/output/[/a].json'")
  ∧ ∃ msg,
      (format_string (example_host false) "Simple" "Hello {name}" "[/a].json"
         [("name", PStr "Alice")] ∅).1
      = Raise (MarkupError msg).
Proof. split; [reflexivity|]. eexists. by vm_compute. Qed.

(** C7: when [save_path] is not empty and the write returns, the file
    at the joined path holds a record of exactly the keys
    [template_type], [template] and [inputs], and [inputs] has exactly the
    extracted variables as keys, each with its keyword argument or the
    empty string. *)
Theorem format_string_saved_record (h : host)
    (template_type template save_path : string) (kwargs : dict pyval)
    (d : disk) (formatted : string) :
  render h template_type template kwargs = Return formatted →
  write_succeeds h template_type template save_path kwargs →
  ∃ inputs,
    (format_string h template_type template save_path kwargs d).2
      !! path_join h (output_directory h) save_path
    = Some (Json (DDict [("template_type", DVal (PStr template_type));
                         ("template", DVal (PStr template));
                         ("inputs", DDict inputs)]))
    ∧ dict_keys inputs = _extract_keys template
    ∧ ∀ k, k ∈ _extract_keys template →
           dict_get inputs k = Some (saved_value kwargs k).
Proof.
  intros Hr [Hne He]. unfold format_string, save_state, write_state.
  rewrite Hr. apply truthy_str in Hne. rewrite Hne, He.
  exists (saved_inputs (_extract_keys template) kwargs). split.
  { destruct (rich_print h _) as [[]|e]; [|destruct (rich_print h _)]; simpl;
      by rewrite lookup_insert_eq. }
  rewrite (saved_inputs_map _ _ (extract_keys_nodup template)).
  split; [apply dict_keys_map|].
  intros k Hk. rewrite (dict_get_map (λ k, DVal (get_or_empty kwargs k))) by done.
  unfold saved_value, get_or_empty. by destruct (dict_get kwargs k).
Qed.

Lemma format_string_saved_record_witness :
  ∃ inputs,
    (format_string (example_host true) "Simple" "Hello {name}" "state.json"
       [("name", PStr "Alice")] ∅).2 !! "/ComfyUI/output/state.json"
    = Some (Json (DDict [("template_type", DVal (PStr "Simple"));
                         ("template", DVal (PStr "Hello {name}"));
                         ("inputs", DDict inputs)]))
    ∧ dict_keys inputs = ["name"]
    ∧ dict_get inputs "name" = Some (DVal (PStr "Alice")).
Proof.
  destruct (format_string_saved_record (example_host true) "Simple"
              "Hello {name}" "state.json" [("name", PStr "Alice")] ∅ "Hello Alice")
    as (inputs & Hfile & Hkeys & Hvalues).
  - reflexivity.
  - split; [done|reflexivity].
  - exists inputs. split; [exact Hfile|]. split; [exact Hkeys|].
    apply (Hvalues "name"). rewrite <- Hkeys. rewrite Hkeys. vm_compute. by left.
Defined.

End FormatStringFacts.

(** ** The class attributes of FormatString *)

Module ClassFacts.
Import FormatString.

Lemma update_widget_class c node_id ty t :
  (update_widget c node_id ty t).2
  = {| CATEGORY := CATEGORY c;
       FUNCTION := FUNCTION c;
       RETURN_TYPES :=
         replicate (length (_extract_keys t)) "STRING" ++ ["STRING"; "STRING"];
       RETURN_NAMES := _extract_keys t ++ ["formatted_string"; "saved_file_path"];
       node_configs :=
         <[node_id := (update_widget c node_id ty t).1]> (node_configs c) |}.
Proof.
  unfold update_widget. by destruct (fold_left _ _ _) as [inputs outputs].
Qed.

(** C4, as amended: among the class attributes, a call of the class leaves
    [CATEGORY] and [FUNCTION] as they were; [update_widget] stores the
    configuration it returns in [node_configs] under its [node_id], leaves
    the entries of the other ids as they were, and assigns [RETURN_TYPES]
    and [RETURN_NAMES] from the extracted keys; every other call leaves the
    whole class as it was. *)
Theorem class_attributes_frame (h : host) (op : call) (w : class_state * disk) :
  CATEGORY (after_call h op w).1 = CATEGORY w.1
  ∧ FUNCTION (after_call h op w).1 = FUNCTION w.1
  ∧ match op with
    | Update_widget node_id template_type template =>
        node_configs (after_call h op w).1 !! node_id
        = Some (update_widget w.1 node_id template_type template).1
        ∧ (∀ other, other ≠ node_id →
             node_configs (after_call h op w).1 !! other
             = node_configs w.1 !! other)
        ∧ RETURN_TYPES (after_call h op w).1
          = replicate (length (_extract_keys template)) "STRING"
            ++ ["STRING"; "STRING"]
        ∧ RETURN_NAMES (after_call h op w).1
          = _extract_keys template ++ ["formatted_string"; "saved_file_path"]
    | _ => (after_call h op w).1 = w.1
    end.
Proof.
  destruct op as [t|ty t sp kwargs|node_id ty t|node_id|path]; simpl;
    try done.
  rewrite update_widget_class. simpl. split_and!; try done.
  - by rewrite lookup_insert_eq.
  - intros other Hne. by rewrite lookup_insert_ne.
Qed.

Lemma class_attributes_frame_witness :
  node_configs
    (after_call (example_host true) (Update_widget "node_123" "Simple" "Hello {name}")
       ((update_widget initial_class "node_456" "Simple" "{age}").2, ∅)).1
    !! "node_456"
  = Some (update_widget initial_class "node_456" "Simple" "{age}").1.
Proof.
  destruct (class_attributes_frame (example_host true)
              (Update_widget "node_123" "Simple" "Hello {name}")
              ((update_widget initial_class "node_456" "Simple" "{age}").2, ∅))
    as (_ & _ & _ & Hother & _).
  rewrite (Hother "node_456") by done. simpl.
  rewrite update_widget_class. simpl. by rewrite lookup_insert_eq.
Defined.

(** C4 as written fails: [update_widget] rebinds [RETURN_TYPES] and
    [RETURN_NAMES] of the class. *)
Lemma update_widget_rebinds_return_names :
  ¬ only_node_configs_change initial_class
      (update_widget initial_class "node_123" "Simple" "Hello {name}").2.
Proof.
  intros (_ & _ & _ & H). rewrite update_widget_class in H.
  vm_compute in H. congruence.
Qed.

Lemma run_calls_not_stored h node_id ops : ∀ w,
  Forall (λ op, ¬ stores node_id op) ops →
  node_configs w.1 !! node_id = None →
  node_configs (run_calls h ops w).1 !! node_id = None.
Proof.
  induction ops as [|op ops IH]; intros w Hops Hw; [done|].
  apply Forall_cons in Hops as [Hop Hops]. simpl. apply IH; [done|].
  destruct op as [t|ty t sp kwargs|id ty t|id|path]; simpl; try done.
  rewrite update_widget_class. simpl. rewrite lookup_insert_ne; [done|].
  exact Hop.
Qed.

(** C8: [get_node_config] after [update_widget] on the same [node_id]
    returns the configuration [update_widget] returned; and after any
    calls on the class as its body leaves it, none of which stores under
    [node_id], [get_node_config] returns the empty dict. *)
Theorem node_config_round_trip (h : host) :
  (∀ c node_id template_type template,
     get_node_config (update_widget c node_id template_type template).2 node_id
     = (update_widget c node_id template_type template).1)
  ∧ (∀ ops d node_id,
       Forall (λ op, ¬ stores node_id op) ops →
       get_node_config (run_calls h ops (initial_class, d)).1 node_id
       = DDict []).
Proof.
  split.
  - intros c node_id ty t. unfold get_node_config.
    rewrite update_widget_class. simpl. by rewrite lookup_insert_eq.
  - intros ops d node_id Hops. unfold get_node_config.
    by rewrite (run_calls_not_stored h node_id ops (initial_class, d) Hops).
Qed.

Lemma node_config_round_trip_witness :
  get_node_config
    (run_calls (example_host true)
       [Update_widget "node_123" "Simple" "Hello {name}";
        Get_node_config "node_123"]
       (initial_class, ∅)).1 "non_existent_node"
  = DDict [].
Proof.
  apply (proj2 (node_config_round_trip (example_host true))).
  apply Forall_cons_2; [simpl; congruence|].
  apply Forall_cons_2; [simpl; tauto|]. apply Forall_nil_2.
Defined.

(** C6 fails on the code: for an exception of [open] or [json.load]
    that is not [FileNotFoundError] the handler prints its text, and when
    that text holds a path with a closing tag the print raises
    [MarkupError], which [load_node_state] raises. *)
Theorem load_node_state_raises :
  load (example_host true) "/etc/passwd/[/a]"
  = Raise (OSError "[Errno 20] Not a directory: '/etc/passwd/[/a]'")
  ∧ ∃ msg,
      load_node_state (example_host true) "/etc/passwd/[/a]"
      = Raise (MarkupError msg).
Proof. split; [reflexivity|]. eexists. by vm_compute. Qed.

End ClassFacts.

(** ** CircuitBreaker.doit *)

Module CircuitBreakerFacts.
Import CircuitBreaker.

(** C3: [doit] raises [InterruptProcessingException] exactly when
    [status] is truthy, raises nothing else, and with [status] false or
    absent returns the tuple of the trigger alone. *)
Theorem doit_interrupts (trigger : pyval) (kwargs : dict pyval) :
  (doit trigger kwargs = Raise InterruptProcessingException
   ↔ truthy (status kwargs) = true)
  ∧ (∀ e, doit trigger kwargs = Raise e → e = InterruptProcessingException)
  ∧ (truthy (status kwargs) = false → doit trigger kwargs = Return [trigger])
  ∧ (dict_get kwargs "status" = None → doit trigger kwargs = Return [trigger]).
Proof.
  unfold doit, status.
  destruct (dict_get kwargs "status") as [v|]; simpl.
  - destruct (truthy v); split_and!; try done; congruence.
  - split_and!; try done; congruence.
Qed.

Lemma doit_interrupts_witness :
  doit (PObj "image") [("status", PBool false)] = Return [PObj "image"].
Proof.
  apply (proj1 (proj2 (proj2
           (doit_interrupts (PObj "image") [("status", PBool false)])))).
  reflexivity.
Defined.

End CircuitBreakerFacts.

(** ** RandomChoice.random_choice *)

Module RandomChoiceFacts.
Import RandomChoice.

Lemma randbelow_range g st n :
  (0 < n)%Z → (0 ≤ (randbelow g st n).1 < n)%Z.
Proof.
  intros Hn. unfold randbelow. destruct (draw g st n) as [r st']. simpl.
  by apply Z.mod_pos_bound.
Qed.

(** On a list that is not empty [choice] returns the value of one of
    its items. *)
Lemma choice_member g input st :
  input ≠ [] → ∃ item, item ∈ input ∧ (choice g input st).1 = Return item.2.
Proof.
  intros Hne. unfold choice. destruct input as [|i0 input]; [done|].
  set (l := i0 :: input).
  pose proof (randbelow_range g st (Z.of_nat (length l))) as Hr.
  destruct (randbelow g st (Z.of_nat (length l))) as [i st'] eqn:E.
  simpl in Hr.
  assert (Z.to_nat i < length l) as Hlt by (subst l; simpl in *; lia).
  apply lookup_lt_is_Some_2 in Hlt as [item Hitem]. rewrite Hitem.
  exists item. split; [by eapply list_elem_of_lookup_2|done].
Qed.

(** C9 fails on the code: the chosen value is printed before the tuple
    is returned, and for a value with a closing tag the print raises
    [MarkupError], which [random_choice] raises. *)
Theorem random_choice_markup_error :
  ∃ msg,
    (random_choice counter [("input1", PStr "[/x]"); ("seed", PInt 1)] 0%Z).1
    = Raise (MarkupError msg).
Proof. eexists. by vm_compute. Qed.




End RandomChoiceFacts.

(** ** More of what [_extract_keys] returns *)

Module ExtractKeysMore.

Section Greedy.
Context {A : Type}.

(** A greedy repetition that meets a character outside its class hands the
    whole run to its continuation first. *)
Lemma star_greedy p w s (k : option ascii → string → option A) a : ∀ prev,
  all_chars p w = true →
  (∀ c s', s = String c s' → p c = false) →
  (∀ prev', k prev' s = Some a) →
  star p prev (w +:+ s) k = Some a.
Proof.
  induction w as [|c w IH]; intros prev Hw Hs Hk.
  - rewrite sapp_nil_l. destruct s as [|c s']; simpl; [apply Hk|].
    rewrite (Hs c s' eq_refl). apply Hk.
  - rewrite sapp_cons. simpl in *. apply andb_prop in Hw as [Hc Hw].
    rewrite Hc. by rewrite (IH (Some c) Hw Hs Hk).
Qed.
End Greedy.

(** The pattern [\{(\w+)\}] matches at a field. *)
Lemma match_at_format_field prev v rest :
  all_chars is_word v = true → v ≠ "" →
  match_at format_field prev ("{" +:+ v +:+ "}" +:+ rest)
  = Some {| group0 := "{" +:+ v +:+ "}"; group1 := v; after := rest |}.
Proof.
  intros Hv Hne. destruct v as [|c v]; [done|]. simpl in Hv.
  apply andb_prop in Hv as [Hc Hv].
  unfold match_at, format_field. cbn [run]. rewrite !sapp_cons, sapp_nil_l.
  cbn [is_char Ascii.eqb Bool.eqb]. cbn [run]. rewrite Hc.
  erewrite (star_greedy is_word v ("}" +:+ rest)); [reflexivity|done| |].
  - intros c' s'. rewrite sapp_cons, sapp_nil_l. by intros [= <- <-].
  - intros prev'. rewrite sapp_cons, sapp_nil_l. cbn [run is_char].
    assert (String "{" (String c (v +:+ String "}" rest))
            = String "{" (String c (v +:+ "}")) +:+ rest) as E0
      by (by rewrite !sapp_cons, sapp_assoc).
    assert (String c (v +:+ String "}" rest) = String c v +:+ String "}" rest)
      as E1 by done.
    rewrite E0, str_take_consumed, E1, str_take_consumed. by rewrite sapp_nil_l.
Qed.

(** No match of [\{(\w+)\}] that starts before a brace runs over it. *)
Lemma field_before_brace pre w post t :
  all_chars is_word w = true →
  pre +:+ String "{" t = w +:+ String "}" post →
  String.length w + 1 ≤ String.length pre.
Proof.
  revert pre. induction w as [|x w IH]; intros pre Hw E.
  - destruct pre as [|c pre]; [|simpl; lia].
    rewrite !sapp_nil_l in E. by inversion E.
  - simpl in Hw. apply andb_prop in Hw as [Hx Hw].
    destruct pre as [|c pre].
    + rewrite sapp_nil_l, sapp_cons in E. inversion E; subst x. done.
    + rewrite !sapp_cons in E. inversion E; subst.
      specialize (IH pre Hw H1). simpl. lia.
Qed.

Lemma format_field_stops pre2 t prev m :
  pre2 ≠ "" →
  match_at format_field prev (pre2 +:+ String "{" t) = Some m →
  String.length (group0 m) ≤ String.length pre2.
Proof.
  intros Hne Hm. apply match_at_sound in Hm as (g' & Hs & _ & Hsplit).
  apply format_field_inv in Hs as (w & E & Hw & _ & _).
  assert (group0 m = "{" +:+ w +:+ "}") as ->.
  { apply (sapp_inv_tail _ _ (after m)). rewrite <- Hsplit, E. by str_norm. }
  destruct pre2 as [|c pre2]; [done|].
  rewrite !sapp_cons, sapp_nil_l in E. inversion E; subst c.
  apply field_before_brace in H1; [|done].
  rewrite !sapp_cons, sapp_nil_l. simpl. rewrite slength_app. simpl. lia.
Qed.

(** [finditer] reaches every match that no earlier match runs over. *)
Lemma finditer_from_reaches r t m pre : ∀ prev skip,
  (∀ prev', match_at r prev' t = Some m) →
  (∀ pre1 pre2 prev' m',
     pre = pre1 +:+ pre2 → pre2 ≠ "" →
     match_at r prev' (pre2 +:+ t) = Some m' →
     String.length (group0 m') ≤ String.length pre2) →
  skip ≤ String.length pre →
  m ∈ finditer_from r prev (pre +:+ t) skip.
Proof.
  induction pre as [|c pre IH]; intros prev skip Hm Hover Hskip.
  - simpl in Hskip. assert (skip = 0) as -> by lia. rewrite sapp_nil_l.
    destruct t as [|c t]; simpl; rewrite Hm; by left.
  - rewrite sapp_cons.
    assert (∀ pre1 pre2 prev' m',
              pre = pre1 +:+ pre2 → pre2 ≠ "" →
              match_at r prev' (pre2 +:+ t) = Some m' →
              String.length (group0 m') ≤ String.length pre2) as Hover'.
    { intros pre1 pre2 prev' m' -> ?. apply (Hover (String c pre1)).
      - done.
      - done. }
    destruct skip as [|n]; simpl.
    + destruct (match_at r prev (String c (pre +:+ t))) as [m'|] eqn:E.
      * right. apply IH; [done..|].
        specialize (Hover "" (String c pre) prev m' eq_refl).
        rewrite sapp_cons in Hover. specialize (Hover ltac:(done) E).
        simpl in Hover. lia.
      * apply IH; [done..|lia].
    + apply IH; [done..|]. simpl in Hskip. lia.
Qed.

Lemma finditer_format_field pre v rest :
  all_chars is_word v = true → v ≠ "" →
  {| group0 := "{" +:+ v +:+ "}"; group1 := v; after := rest |}
  ∈ finditer format_field (pre +:+ "{" +:+ v +:+ "}" +:+ rest).
Proof.
  intros Hv Hne. unfold finditer. apply finditer_from_reaches; [| |lia].
  - intros prev'. by apply match_at_format_field.
  - intros pre1 pre2 prev' m' _. rewrite sapp_cons, sapp_nil_l.
    apply format_field_stops.
Qed.

Lemma add_var_tracks var a : seen_tracks a → seen_tracks (add_var var a).
Proof.
  intros Hs. unfold add_var. fold (normalise var). case_decide; [|done].
  intros x. simpl. rewrite elem_of_union, elem_of_singleton, elem_of_app,
    list_elem_of_singleton, (Hs x). tauto.
Qed.

Lemma add_var_mono var a x : x ∈ variables a → x ∈ variables (add_var var a).
Proof.
  intros Hx. unfold add_var. case_decide; [|done]. simpl.
  apply elem_of_app. by left.
Qed.

Lemma add_var_adds var a :
  seen_tracks a →
  normalise var ∈ variables (add_var var a)
  ∨ normalise var ∈ additional_context_keys.
Proof.
  intros Hs. unfold add_var. fold (normalise var).
  case_decide as Hd.
  - left. simpl. apply elem_of_app. right. by apply list_elem_of_singleton.
  - destruct (decide (normalise var ∈ additional_context_keys)); [by right|].
    left. apply Hs. destruct (decide (normalise var ∈ seen a)); [done|].
    exfalso. by apply Hd.
Qed.

Lemma fold_add_var_tracks l : ∀ a,
  seen_tracks a → seen_tracks (fold_left (λ a m, add_var (group1 m) a) l a).
Proof.
  induction l as [|m l IH]; simpl; intros a Ha; [done|].
  by apply IH, add_var_tracks.
Qed.

Lemma fold_add_var_mono l x : ∀ a,
  x ∈ variables a → x ∈ variables (fold_left (λ a m, add_var (group1 m) a) l a).
Proof.
  induction l as [|m l IH]; simpl; intros a Ha; [done|].
  by apply IH, add_var_mono.
Qed.

Lemma fold_add_var_adds l m : ∀ a,
  seen_tracks a → m ∈ l →
  normalise (group1 m) ∈ variables (fold_left (λ a m, add_var (group1 m) a) l a)
  ∨ normalise (group1 m) ∈ additional_context_keys.
Proof.
  induction l as [|m' l IH]; simpl; intros a Ha Hm.
  - by apply elem_of_nil in Hm.
  - apply elem_of_cons in Hm as [->|Hm].
    + destruct (add_var_adds (group1 m') a Ha) as [H|H]; [|by right].
      left. by apply fold_add_var_mono.
    + apply IH; [by apply add_var_tracks|done].
Qed.

Lemma add_filtered_mono m a x :
  x ∈ variables a → x ∈ variables (add_filtered m a).
Proof.
  unfold add_filtered. generalize (findall filtered_name (group0 m)) as l.
  intros l. revert a. induction l as [|var l IH]; simpl; intros a Ha; [done|].
  apply IH. destruct (_ && _); [by apply add_var_mono|done].
Qed.

Lemma fold_add_filtered_mono l x : ∀ a,
  x ∈ variables a → x ∈ variables (fold_left (λ a m, add_filtered m a) l a).
Proof.
  induction l as [|m l IH]; simpl; intros a Ha; [done|].
  by apply IH, add_filtered_mono.
Qed.

Lemma seen_tracks_init : seen_tracks (Acc [] ∅).
Proof.
  intros x. simpl. split; [by intros ?%not_elem_of_empty|by intros ?%elem_of_nil].
Qed.

(** X1: every field [{v}] of the template, [v] a run of word characters and
    no key of [additional_context], is among the names [_extract_keys]
    returns. *)
Theorem format_fields_extracted (template v : string) :
  word_string v → occurs_format v template →
  v ∉ additional_context_keys →
  v ∈ _extract_keys template.
Proof.
  intros Hw [Hne (pre & post & ->)] Hctx. unfold _extract_keys.
  apply fold_add_filtered_mono.
  set (a := fold_left _ (finditer jinja_expression _) _).
  assert (seen_tracks a) as Ha by apply fold_add_var_tracks, seen_tracks_init.
  pose proof (finditer_format_field pre v post Hw Hne) as Hm.
  rewrite <- !sapp_assoc in Hm. rewrite <- !sapp_assoc.
  destruct (fold_add_var_adds _ _ a Ha Hm) as [H|H]; simpl in H;
    rewrite (normalise_word _ Hw) in H; [done|].
  by destruct Hctx.
Qed.

Lemma format_fields_extracted_witness : "name" ∈ _extract_keys "Hello {name}".
Proof.
  apply format_fields_extracted.
  - reflexivity.
  - split; [done|]. by exists "Hello ", "".
  - unfold additional_context_keys, dict_keys. simpl.
    rewrite !elem_of_cons, elem_of_nil. intuition congruence.
Defined.

(** X2: a template without a brace has no variables. *)
Theorem no_brace_no_keys (template : string) :
  ¬ infix "{" template → _extract_keys template = [].
Proof.
  intros Hno. destruct (ExtractKeys.extract_keys_ok template) as (a & -> & [_ _ _ Hp]).
  destruct (variables a) as [|v l]; [done|]. exfalso. apply Hno.
  destruct (Hp v) as [_ Hv]; [by left|].
  destruct Hv as [(ws & tail & _ & _ & H)|[[_ H]|[_ (mid & H & _)]]].
  - by apply (infix_prefix_part "{") in H.
  - by apply (infix_prefix_part "{") in H.
  - by apply (infix_prefix_part "{") in H.
Qed.

Lemma no_brace_no_keys_witness : _extract_keys "Hello world" = [].
Proof.
  apply no_brace_no_keys. intros H%contains_infix. by vm_compute in H.
Defined.

End ExtractKeysMore.

(** ** Expressions of Jinja2 that [_extract_keys] finds *)

Module JinjaMore.
Import ExtractKeysMore.


Lemma space_not_bar c : is_space c = true → is_char "|" c = false.
Proof. destruct c as [[] [] [] [] [] [] [] []]; by vm_compute. Qed.

Lemma space_not_dot c : is_space c = true → is_char "." c = false.
Proof. destruct c as [[] [] [] [] [] [] [] []]; by vm_compute. Qed.

Lemma space_not_word_or_dot c : is_space c = true → word_or_dot c = false.
Proof. destruct c as [[] [] [] [] [] [] [] []]; by vm_compute. Qed.

Lemma space_not_open c : is_space c = true → not_open c = true.
Proof. destruct c as [[] [] [] [] [] [] [] []]; by vm_compute. Qed.

Lemma word_or_dot_not_open c : word_or_dot c = true → not_open c = true.
Proof. destruct c as [[] [] [] [] [] [] [] []]; by vm_compute. Qed.

Lemma word_or_space_not_open c : word_or_space c = true → not_open c = true.
Proof. destruct c as [[] [] [] [] [] [] [] []]; by vm_compute. Qed.

Lemma word_is_word_or_dot c : is_word c = true → word_or_dot c = true.
Proof. unfold word_or_dot. by intros ->. Qed.

Lemma closes_tail ws rest :
  all_chars is_space ws = true → closes (ws +:+ "}}" +:+ rest).
Proof.
  intros Hws c s' E. destruct ws as [|x ws].
  - rewrite sapp_nil_l, sapp_cons in E. inversion E. by right.
  - rewrite sapp_cons in E. inversion E; subst. simpl in Hws.
    apply andb_prop in Hws as [? _]. by left.
Qed.

(** The pattern of the expressions matches at [{{ v }}]. *)
Lemma match_at_jinja_expression prev ws1 v ws2 rest :
  all_chars is_space ws1 = true → all_chars is_word v = true → v ≠ "" →
  all_chars is_space ws2 = true →
  match_at jinja_expression prev
    ("{{" +:+ ws1 +:+ v +:+ ws2 +:+ "}}" +:+ rest)
  = Some {| group0 := "{{" +:+ ws1 +:+ v +:+ ws2 +:+ "}}";
            group1 := v; after := rest |}.
Proof.
  intros Hws1 Hv Hne Hws2. destruct v as [|c v]; [done|]. simpl in Hv.
  apply andb_prop in Hv as [Hc Hv].
  pose proof (closes_tail ws2 rest Hws2) as Hcl.
  unfold match_at, jinja_expression. rewrite !sapp_cons, sapp_nil_l.
  rewrite run_cat, run_lit, run_cat, run_lit, run_cat, run_star.
  erewrite (star_greedy is_space ws1); [reflexivity|done| |].
  { intros c' s'. intros [= <- <-]. by apply word_not_space. }
  intros prev1. cbv beta.
  rewrite run_cat, run_grp, (run_plus _ _ _ _ _ _ (word_is_word_or_dot _ Hc)).
  erewrite (star_greedy word_or_dot v); [reflexivity| | |].
  { eapply all_chars_impl; [|exact Hv]. apply word_is_word_or_dot. }
  { intros c' s' E. destruct (Hcl _ _ E) as [?| ->]; [|done].
    by apply space_not_word_or_dot. }
  intros prev2. cbv beta.
  rewrite run_cat, run_opt_skip.
  2:{ apply lit_fails. intros s' E. destruct (Hcl _ _ E) as [H|?]; [|done].
      by apply space_not_bar in H. }
  rewrite run_cat, run_opt_skip.
  2:{ apply lit_fails. intros s' E. destruct (Hcl _ _ E) as [H|?]; [|done].
      by apply space_not_dot in H. }
  rewrite run_cat, run_star.
  erewrite (star_greedy is_space ws2); [reflexivity|done| |].
  { intros c' s'. rewrite ?sapp_cons, ?sapp_nil_l. by intros [= <- <-]. }
  intros prev3. cbv beta. rewrite ?sapp_cons, ?sapp_nil_l.
  rewrite run_cat, run_lit, run_lit.
  assert (String "{" (String "{"
            (ws1 +:+ String c (v +:+ ws2 +:+ String "}" (String "}" rest))))
          = String "{" (String "{" (ws1 +:+ String c (v +:+ ws2 +:+ "}}")))
            +:+ rest) as E0 by (by str_norm).
  assert (String c (v +:+ ws2 +:+ String "}" (String "}" rest))
          = String c v +:+ ws2 +:+ String "}" (String "}" rest)) as E1 by done.
  by rewrite E0, str_take_consumed, E1, str_take_consumed.
Qed.

Ltac not_open_facts :=
  repeat match goal with
         | H : all_chars is_space ?x = true |- _ =>
             lazymatch goal with
             | _ : all_chars not_open x = true |- _ => fail
             | _ => pose proof (all_chars_impl _ not_open x space_not_open H)
             end
         | H : all_chars word_or_dot ?x = true |- _ =>
             lazymatch goal with
             | _ : all_chars not_open x = true |- _ => fail
             | _ => pose proof (all_chars_impl _ not_open x word_or_dot_not_open H)
             end
         | H : all_chars word_or_space ?x = true |- _ =>
             lazymatch goal with
             | _ : all_chars not_open x = true |- _ => fail
             | _ => pose proof (all_chars_impl _ not_open x word_or_space_not_open H)
             end
         end.

Ltac not_open_solve :=
  not_open_facts; rewrite ?all_chars_app; cbn [all_chars]; rewrite ?all_chars_app;
  repeat match goal with
         | H : all_chars not_open _ = true |- _ => rewrite H
         end;
  reflexivity.

Lemma nonempty_head s : String.length s ≠ 0 → ∃ b body, s = String b body.
Proof. destruct s as [|b body]; [done|]. by exists b, body. Qed.

(** A match of the pattern of the expressions in a text without
    parentheses has no brace between its two pairs of braces. *)
Lemma jinja_expression_body s g s' g' :
  sem jinja_expression s g s' g' → ¬ infix "(" s →
  ∃ body, s = "{{" +:+ body +:+ "}}" +:+ s'
          ∧ all_chars not_open body = true ∧ String.length body ≠ 0.
Proof.
  simpl. intros H Hno.
  repeat match goal with
         | H : ∃ _, _ |- _ => destruct H
         | H : _ ∧ _ |- _ => destruct H
         | H : _ ∨ _ |- _ => destruct H
         end; subst.
  all: match goal with
       | H : _ +:+ _ = _ +:+ _ |- _ => apply sapp_inv_tail in H; subst
       end.
  all: try (exfalso; apply Hno;
            match goal with
            | |- infix "(" (String "{" (String "{" (?a +:+ ?b +:+ String "|" (?c +:+ String "." (?d +:+ _))))) =>
                exists ("{{" +:+ a +:+ b +:+ "|" +:+ c +:+ "." +:+ d); eexists; by str_norm
            | |- infix "(" (String "{" (String "{" (?a +:+ ?b +:+ String "." (?d +:+ _)))) =>
                exists ("{{" +:+ a +:+ b +:+ "." +:+ d); eexists; by str_norm
            end).
  - match goal with
    | |- context [ String "{" (String "{" (?ws +:+ ?grp +:+ String "|" (?a +:+ ?c +:+ _))) ] =>
        exists (ws +:+ grp +:+ String "|" (a +:+ c))
    end.
    split_and!; [by str_norm|not_open_solve|].
    rewrite !slength_app.
    match goal with Hn : ?grp ≠ "" |- _ => destruct grp; [done|simpl; lia] end.
  - match goal with
    | |- context [ String "{" (String "{" (?ws +:+ ?grp +:+ ?c +:+ String "}" _)) ] =>
        exists (ws +:+ grp +:+ c)
    end.
    split_and!; [by str_norm|not_open_solve|].
    rewrite !slength_app.
    match goal with Hn : ?grp ≠ "" |- _ => destruct grp; [done|simpl; lia] end.
Qed.

Lemma body_before_braces body : ∀ p t after,
  all_chars not_open body = true →
  p +:+ String "{" t = body +:+ "}}" +:+ after →
  String.length body + 2 ≤ String.length p.
Proof.
  induction body as [|b body IH]; intros p t after Hb E.
  - rewrite sapp_nil_l in E. destruct p as [|c [|c' p]]; [done| |simpl; lia].
    rewrite !sapp_cons, !sapp_nil_l in E. by inversion E.
  - simpl in Hb. apply andb_prop in Hb as [Hb0 Hb].
    destruct p as [|c p].
    + rewrite sapp_nil_l, sapp_cons in E. inversion E; subst b. done.
    + rewrite !sapp_cons in E. inversion E; subst.
      specialize (IH p t after Hb H1). simpl. lia.
Qed.

Lemma jinja_expression_stops pre2 t prev m :
  pre2 ≠ "" → ¬ infix "(" (pre2 +:+ "{{" +:+ t) →
  match_at jinja_expression prev (pre2 +:+ "{{" +:+ t) = Some m →
  String.length (group0 m) ≤ String.length pre2.
Proof.
  intros Hne Hno Hm. apply match_at_sound in Hm as (g' & Hs & _ & Hsplit).
  apply jinja_expression_body in Hs as (body & E & Hb & Hlen); [|done].
  assert (group0 m = "{{" +:+ body +:+ "}}") as ->.
  { apply (sapp_inv_tail _ _ (after m)). rewrite <- Hsplit, E. by str_norm. }
  destruct pre2 as [|c1 [|c2 p]]; [done| |].
  - rewrite !sapp_cons, !sapp_nil_l in E. inversion E; subst c1.
    destruct body as [|b body]; [done|]. rewrite sapp_cons in H1.
    inversion H1; subst b. done.
  - rewrite !sapp_cons, !sapp_nil_l in E. inversion E; subst c1 c2.
    apply body_before_braces in H2; [|done].
    rewrite !sapp_cons, sapp_nil_l. simpl. rewrite slength_app. simpl. lia.
Qed.

Lemma finditer_jinja_expression pre ws1 v ws2 rest :
  all_chars is_space ws1 = true → all_chars is_word v = true → v ≠ "" →
  all_chars is_space ws2 = true →
  ¬ infix "(" (pre +:+ "{{" +:+ ws1 +:+ v +:+ ws2 +:+ "}}" +:+ rest) →
  {| group0 := "{{" +:+ ws1 +:+ v +:+ ws2 +:+ "}}"; group1 := v; after := rest |}
  ∈ finditer jinja_expression
      (pre +:+ "{{" +:+ ws1 +:+ v +:+ ws2 +:+ "}}" +:+ rest).
Proof.
  intros Hws1 Hv Hne Hws2 Hno. unfold finditer.
  apply finditer_from_reaches; [| |lia].
  - intros prev'. by apply match_at_jinja_expression.
  - intros pre1 pre2 prev' m' -> Hne2. apply jinja_expression_stops; [done|].
    intros Hin. apply Hno. rewrite sapp_assoc. by apply infix_app_l.
Qed.

(** X21: every expression [{{ v }}] of a template without parentheses,
    [v] a run of word characters between optional white space and no key
    of [additional_context], gives [v] among the names [_extract_keys]
    returns. *)
Theorem jinja_names_extracted (template v ws1 ws2 : string) :
  word_string v → v ≠ "" →
  all_chars is_space ws1 = true → all_chars is_space ws2 = true →
  infix ("{{" +:+ ws1 +:+ v +:+ ws2 +:+ "}}") template →
  ¬ infix "(" template →
  v ∉ additional_context_keys →
  v ∈ _extract_keys template.
Proof.
  intros Hw Hne Hws1 Hws2 (pre & post & ->) Hno Hctx. unfold _extract_keys.
  apply fold_add_filtered_mono, fold_add_var_mono.
  assert (pre +:+ ("{{" +:+ ws1 +:+ v +:+ ws2 +:+ "}}") +:+ post
          = pre +:+ "{{" +:+ ws1 +:+ v +:+ ws2 +:+ "}}" +:+ post) as E
    by (by str_norm).
  rewrite E in *.
  pose proof (finditer_jinja_expression pre ws1 v ws2 post Hws1 Hw Hne Hws2 Hno)
    as Hm.
  destruct (fold_add_var_adds _ _ (Acc [] ∅) seen_tracks_init Hm) as [H|H];
    simpl in H; rewrite (normalise_word _ Hw) in H; [done|].
  by destruct Hctx.
Qed.

Lemma jinja_names_extracted_witness :
  "name" ∈ _extract_keys "Hello {{ name }}, it is {{ day }}".
Proof.
  apply (jinja_names_extracted "Hello {{ name }}, it is {{ day }}" "name" " " " ").
  - reflexivity.
  - done.
  - reflexivity.
  - reflexivity.
  - by exists "Hello ", ", it is {{ day }}".
  - intros H%contains_infix. by vm_compute in H.
  - unfold additional_context_keys, dict_keys. simpl.
    rewrite !elem_of_cons, elem_of_nil. intuition congruence.
Defined.

End JinjaMore.

(** ** More of [format_string] *)

Module FormatStringMore.
Import FormatString FormatStringFacts.

(** X3: an exception that formatting raises is raised by
    [format_string], which then writes nothing; with an empty [save_path]
    [format_string] raises no other exception. *)
Theorem format_string_raises (h : host) (template_type template save_path : string)
    (kwargs : dict pyval) (d : disk) (e : exn) :
  (render h template_type template kwargs = Raise e →
   format_string h template_type template save_path kwargs d = (Raise e, d))
  ∧ ((format_string h template_type template "" kwargs d).1 = Raise e
     ↔ render h template_type template kwargs = Raise e).
Proof.
  unfold format_string. split.
  - by intros ->.
  - destruct (render h template_type template kwargs) as [s|e']; simpl;
      split; congruence.
Qed.

Lemma format_string_raises_witness :
  format_string (example_host true) "Simple" "Hello {name}" "state.json" [] ∅
  = (Raise (KeyError "name"), ∅).
Proof.
  apply (format_string_raises (example_host true) "Simple" "Hello {name}"
           "state.json" [] ∅ (KeyError "name")).
  reflexivity.
Defined.

(** X4: [format_string] writes no file but the one at
    [os.path.join(output_directory, save_path)], and none at all when
    [save_path] is empty. *)
Theorem format_string_disk_frame (h : host)
    (template_type template save_path : string) (kwargs : dict pyval) (d : disk) :
  (save_path = "" →
   (format_string h template_type template save_path kwargs d).2 = d)
  ∧ (∀ path, path ≠ path_join h (output_directory h) save_path →
       (format_string h template_type template save_path kwargs d).2 !! path
       = d !! path).
Proof.
  unfold format_string, save_state, write_state.
  destruct (render h template_type template kwargs) as [s|e]; [|done].
  destruct (truthy (PStr save_path)) eqn:Ht; [|done].
  apply truthy_str in Ht. split; [done|]. intros path Hp.
  destruct (save_raises _ _ _); [destruct (truncates _ _ _)|];
    repeat (destruct (rich_print _ _)); simpl;
    by rewrite ?lookup_insert_ne.
Qed.

Lemma format_string_disk_frame_witness :
  (format_string (example_host true) "Simple" "Hello {name}" "state.json"
     [("name", PStr "Alice")] ∅).2 !! "/ComfyUI/output/other.json"
  = (∅ : disk) !! "/ComfyUI/output/other.json".
Proof.
  apply (format_string_disk_frame (example_host true) "Simple" "Hello {name}"
           "state.json" [("name", PStr "Alice")] ∅).
  by vm_compute.
Defined.

(** X5: any [template_type] but "Simple" is rendered by Jinja2, and a
    [TemplateSyntaxError] of Jinja2 is not raised: its message, after
    "Error in Jinja2 template: ", takes the place of the formatted string
    in the tuple, which [format_string] returns when [save_path] is empty
    and whenever the save block lets it return. *)
Theorem format_string_syntax_error (h : host)
    (template_type template msg : string) (kwargs : dict pyval) (d : disk) :
  template_type ≠ "Simple" →
  jinja_render h template (dict_merge additional_context kwargs)
  = Raise (TemplateSyntaxError msg) →
  (format_string h template_type template "" kwargs d).1
  = Return (input_values template kwargs
            ++ ["Error in Jinja2 template: " +:+ msg; ""])
  ∧ ∀ save_path outputs,
      (format_string h template_type template save_path kwargs d).1
      = Return outputs →
      ∃ saved_file_path,
        outputs = input_values template kwargs
                  ++ ["Error in Jinja2 template: " +:+ msg; saved_file_path].
Proof.
  intros Hty Hj. unfold format_string, render.
  destruct (String.eqb_spec template_type "Simple") as [|_]; [done|].
  rewrite Hj, input_values_code. simpl. split; [done|].
  intros save_path outputs.
  destruct (save_state _ _ _ _) as [[p|e] d']; simpl; [|done].
  intros [= <-]. by exists p.
Qed.

Lemma format_string_syntax_error_witness :
  (format_string strict_host "Jinja2" "Hello {{ name }" "" [("name", PStr "Bob")] ∅).1
  = Return (input_values "Hello {{ name }" [("name", PStr "Bob")]
            ++ ["Error in Jinja2 template: " +:+ "unexpected '}'"; ""]).
Proof.
  apply (format_string_syntax_error strict_host "Jinja2" "Hello {{ name }"
           "unexpected '}'" [("name", PStr "Bob")] ∅).
  - done.
  - reflexivity.
Defined.

(** X6: for any [template_type] but "Simple", [render] hands to Jinja2 a
    context where a keyword argument stands under its name, also when
    [additional_context] has that name, and where a name that is no
    keyword argument has its [additional_context] entry, if there is one;
    what Jinja2 makes of it is the result, but for a [TemplateSyntaxError],
    whose message is returned. *)
Theorem jinja_context_lookup (h : host) (template_type template : string)
    (kwargs : dict pyval) :
  template_type ≠ "Simple" → NoDup (dict_keys kwargs) →
  ∃ context,
    (∀ k, dict_get context k
          = match dict_get kwargs k with
            | Some v => Some v
            | None => dict_get additional_context k
            end)
    ∧ render h template_type template kwargs
      = match jinja_render h template context with
        | Raise (TemplateSyntaxError msg) =>
            Return ("Error in Jinja2 template: " +:+ msg)
        | rendered => rendered
        end.
Proof.
  intros Hty Hnd. exists (dict_merge additional_context kwargs). split.
  - intros k. by apply dict_merge_get.
  - unfold render, try_except.
    destruct (String.eqb_spec template_type "Simple") as [|_]; [done|].
    by destruct (jinja_render h template _) as [r|[]].
Qed.

Lemma jinja_context_lookup_witness :
  ∃ context,
    (∀ k, dict_get context k
          = match dict_get [("name", PStr "Bob"); ("now", PStr "noon")] k with
            | Some v => Some v
            | None => dict_get additional_context k
            end)
    ∧ render strict_host "Jinja2" "{{ now }"
        [("name", PStr "Bob"); ("now", PStr "noon")]
      = match jinja_render strict_host "{{ now }" context with
        | Raise (TemplateSyntaxError msg) =>
            Return ("Error in Jinja2 template: " +:+ msg)
        | rendered => rendered
        end.
Proof.
  apply (jinja_context_lookup strict_host "Jinja2" "{{ now }"
           [("name", PStr "Bob"); ("now", PStr "noon")]).
  - done.
  - apply NoDup_cons_2; [|apply NoDup_singleton].
    simpl. rewrite list_elem_of_singleton. congruence.
Defined.

End FormatStringMore.

(** ** The configuration of [update_widget] and sequences of calls *)

Module WidgetFacts.
Import FormatString FormatStringFacts ClassFacts FormatStringMore.

Lemma update_widget_loop keys : ∀ inputs outputs,
  fold_left
    (λ '(inputs, outputs) key,
       (dict_set inputs key string_input, outputs ++ [output_socket key]))
    keys (inputs, outputs)
  = (fold_left (λ inputs key, dict_set inputs key string_input) keys inputs,
     outputs ++ map output_socket keys).
Proof.
  induction keys as [|k keys IH]; simpl; intros inputs outputs.
  - by rewrite app_nil_r.
  - by rewrite IH, <- app_assoc.
Qed.

Lemma update_widget_config c node_id ty t :
  (update_widget c node_id ty t).1
  = DDict [("inputs", DDict (widget_inputs (_extract_keys t)));
           ("outputs",
            DList (map output_socket
                     (_extract_keys t ++ ["formatted_string"; "saved_file_path"])))].
Proof.
  unfold update_widget. rewrite update_widget_loop. simpl.
  by rewrite map_app.
Qed.

(** X7: the output sockets of the configuration [update_widget] returns are
    the names it leaves in [RETURN_NAMES], in that order and typed STRING,
    and [RETURN_TYPES] has one STRING for each of them. *)
Theorem update_widget_outputs (c : class_state) (node_id template_type template : string) :
  ∃ inputs,
    (update_widget c node_id template_type template).1
    = DDict [("inputs", DDict inputs);
             ("outputs",
              DList (map output_socket
                       (RETURN_NAMES (update_widget c node_id template_type template).2)))]
    ∧ RETURN_TYPES (update_widget c node_id template_type template).2
      = replicate
          (length (RETURN_NAMES (update_widget c node_id template_type template).2))
          "STRING".
Proof.
  exists (widget_inputs (_extract_keys template)).
  rewrite update_widget_class, update_widget_config. simpl. split; [done|].
  rewrite length_app. simpl.
  by rewrite replicate_add.
Qed.

Lemma widget_inputs_get keys k : ∀ inputs,
  dict_get (fold_left (λ inputs key, dict_set inputs key string_input) keys inputs) k
  = if decide (k ∈ keys) then Some string_input else dict_get inputs k.
Proof.
  induction keys as [|k0 keys IH]; simpl; intros inputs.
  - destruct (decide (k ∈ [])) as [H|H]; [by apply elem_of_nil in H|done].
  - rewrite IH. destruct (decide (k ∈ keys)) as [Hin|Hout].
    + rewrite decide_True; [done|by right].
    + destruct (decide (k0 = k)) as [->|Hne].
      * rewrite decide_True by (by left). apply dict_get_set_eq.
      * rewrite decide_False.
        -- by apply dict_get_set_ne.
        -- intros [?|?]%elem_of_cons; congruence.
Qed.

(** X8: in the configuration [update_widget] returns every extracted name is
    an input with the STRING widget of default [""], also a name that one
    of the three fixed inputs has; any other name is an input only if it is
    one of the three fixed inputs, with the widget [INPUT_TYPES] gives. *)
Theorem update_widget_inputs (c : class_state) (node_id template_type template : string) :
  ∃ inputs outputs,
    (update_widget c node_id template_type template).1
    = DDict [("inputs", DDict inputs); ("outputs", DList outputs)]
    ∧ (∀ k, k ∈ _extract_keys template → dict_get inputs k = Some string_input)
    ∧ (∀ k, k ∉ _extract_keys template → dict_get inputs k = dict_get fixed_inputs k).
Proof.
  eexists _, _. split; [apply update_widget_config|].
  unfold widget_inputs. split; intros k Hk; rewrite widget_inputs_get.
  - by rewrite decide_True.
  - by rewrite decide_False.
Qed.

Lemma update_widget_inputs_witness :
  ∃ inputs outputs,
    (update_widget initial_class "n" "Simple" "{template} and {name}").1
    = DDict [("inputs", DDict inputs); ("outputs", DList outputs)]
    ∧ (∀ k, k ∈ _extract_keys "{template} and {name}" →
         dict_get inputs k = Some string_input)
    ∧ (∀ k, k ∉ _extract_keys "{template} and {name}" →
         dict_get inputs k = dict_get fixed_inputs k).
Proof.
  apply (update_widget_inputs initial_class "n" "Simple" "{template} and {name}").
Defined.

(** X9: a second [update_widget] with the same arguments returns the same
    configuration and leaves the class as the first left it. *)
Theorem update_widget_idempotent (c : class_state) (node_id template_type template : string) :
  update_widget (update_widget c node_id template_type template).2
    node_id template_type template
  = update_widget c node_id template_type template.
Proof.
  apply injective_projections.
  - by rewrite !update_widget_config.
  - rewrite !update_widget_class, !update_widget_config. simpl.
    f_equal. apply insert_insert_eq.
Qed.

Lemma run_calls_app h ops1 ops2 w :
  run_calls h (ops1 ++ ops2) w = run_calls h ops2 (run_calls h ops1 w).
Proof. apply fold_left_app. Qed.

Lemma run_calls_cons h op ops w :
  run_calls h (op :: ops) w = run_calls h ops (after_call h op w).
Proof. reflexivity. Qed.

Lemma run_calls_keeps h node_id ops : ∀ w,
  Forall (λ op, ¬ stores node_id op) ops →
  node_configs (run_calls h ops w).1 !! node_id = node_configs w.1 !! node_id.
Proof.
  induction ops as [|op ops IH]; intros w Hops; [done|].
  apply Forall_cons in Hops as [Hop Hops]. simpl.
  change (fold_left _ ops ?w') with (run_calls h ops w').
  rewrite (IH _ Hops).
  destruct op as [t|ty t sp kwargs|id ty t|id|path]; simpl; try done.
  rewrite update_widget_class. simpl. rewrite lookup_insert_ne; [done|].
  exact Hop.
Qed.

(** X10: after any calls on the class, [get_node_config] returns the
    configuration that the last [update_widget] for this [node_id]
    returned. *)
Theorem get_node_config_last_update (h : host) (ops1 ops2 : list call)
    (w : class_state * disk) (node_id template_type template : string) :
  Forall (λ op, ¬ stores node_id op) ops2 →
  get_node_config
    (run_calls h (ops1 ++ Update_widget node_id template_type template :: ops2) w).1
    node_id
  = (update_widget (run_calls h ops1 w).1 node_id template_type template).1.
Proof.
  intros Hops. unfold get_node_config.
  rewrite run_calls_app. simpl.
  change (fold_left _ ops2 ?w') with (run_calls h ops2 w').
  rewrite (run_calls_keeps h node_id ops2 _ Hops). simpl.
  rewrite update_widget_class. simpl. by rewrite lookup_insert_eq.
Qed.

Lemma get_node_config_last_update_witness :
  get_node_config
    (run_calls (example_host true)
       ([Update_widget "a" "Simple" "{x}"]
        ++ Update_widget "a" "Simple" "{y}"
           :: [Update_widget "b" "Simple" "{z}";
               Format_string "Simple" "{z}" "" [("z", PStr "1")]])
       (initial_class, ∅)).1 "a"
  = (update_widget
       (run_calls (example_host true) [Update_widget "a" "Simple" "{x}"]
          (initial_class, ∅)).1 "a" "Simple" "{y}").1.
Proof.
  apply (get_node_config_last_update (example_host true)
           [Update_widget "a" "Simple" "{x}"]
           [Update_widget "b" "Simple" "{z}";
            Format_string "Simple" "{z}" "" [("z", PStr "1")]]
           (initial_class, ∅) "a" "Simple" "{y}").
  apply Forall_cons_2; [simpl; congruence|].
  apply Forall_cons_2; [simpl; tauto|]. apply Forall_nil_2.
Defined.

Lemma run_calls_return_names h ops : ∀ w,
  Forall (λ op, ¬ updates op) ops →
  RETURN_NAMES (run_calls h ops w).1 = RETURN_NAMES w.1
  ∧ RETURN_TYPES (run_calls h ops w).1 = RETURN_TYPES w.1.
Proof.
  induction ops as [|op ops IH]; intros w Hops; [done|].
  apply Forall_cons in Hops as [Hop Hops]. simpl.
  change (fold_left _ ops ?w') with (run_calls h ops w').
  destruct (IH (after_call h op w) Hops) as [-> ->].
  destruct op as [t|ty t sp kwargs|id ty t|id|path]; simpl; try done.
Qed.

(** X11: [RETURN_NAMES] and [RETURN_TYPES] are those of the template of the
    last [update_widget], whatever node it was called for: the class has
    one pair of them for all its nodes. *)
Theorem return_names_last_update (h : host) (ops1 ops2 : list call)
    (w : class_state * disk) (node_id template_type template : string) :
  Forall (λ op, ¬ updates op) ops2 →
  RETURN_NAMES
    (run_calls h (ops1 ++ Update_widget node_id template_type template :: ops2) w).1
  = _extract_keys template ++ ["formatted_string"; "saved_file_path"]
  ∧ RETURN_TYPES
      (run_calls h (ops1 ++ Update_widget node_id template_type template :: ops2) w).1
    = replicate (length (_extract_keys template)) "STRING" ++ ["STRING"; "STRING"].
Proof.
  intros Hops. rewrite run_calls_app, run_calls_cons.
  destruct (run_calls_return_names h ops2
              (after_call h (Update_widget node_id template_type template)
                 (run_calls h ops1 w)) Hops) as [-> ->].
  simpl. by rewrite update_widget_class.
Qed.

Lemma return_names_last_update_witness :
  RETURN_NAMES
    (run_calls (example_host true)
       ([Update_widget "a" "Simple" "{x}"]
        ++ Update_widget "b" "Simple" "{y}" :: [Get_node_config "a"])
       (initial_class, ∅)).1
  = _extract_keys "{y}" ++ ["formatted_string"; "saved_file_path"]
  ∧ RETURN_TYPES
      (run_calls (example_host true)
         ([Update_widget "a" "Simple" "{x}"]
          ++ Update_widget "b" "Simple" "{y}" :: [Get_node_config "a"])
         (initial_class, ∅)).1
    = replicate (length (_extract_keys "{y}")) "STRING" ++ ["STRING"; "STRING"].
Proof.
  apply (return_names_last_update (example_host true)
           [Update_widget "a" "Simple" "{x}"] [Get_node_config "a"]
           (initial_class, ∅) "b" "Simple" "{y}").
  apply Forall_cons_2; [simpl; tauto|]. apply Forall_nil_2.
Defined.

(** X12: the tuple [format_string] returns has one element for each name
    that [update_widget] leaves in [RETURN_NAMES] for the same template,
    and for each type in [RETURN_TYPES]. *)
Theorem format_string_tuple_length (h : host) (c : class_state)
    (node_id template_type template_type' template save_path : string)
    (kwargs : dict pyval) (d : disk) (outputs : list string) :
  (format_string h template_type template save_path kwargs d).1 = Return outputs →
  length outputs
  = length (RETURN_NAMES (update_widget c node_id template_type' template).2)
  ∧ length outputs
    = length (RETURN_TYPES (update_widget c node_id template_type' template).2).
Proof.
  unfold format_string.
  destruct (render h template_type template kwargs) as [s|e]; [|done].
  destruct (save_state _ _ _ _) as [[p|e] d']; simpl; [|done]. intros [= <-].
  rewrite update_widget_class. simpl.
  by rewrite !length_app, length_map, length_replicate.
Qed.

Lemma format_string_tuple_length_witness :
  length ["Alice"; "Hello Alice"; ""]
  = length (RETURN_NAMES (update_widget initial_class "n" "Simple" "Hello {name}").2)
  ∧ length ["Alice"; "Hello Alice"; ""]
    = length (RETURN_TYPES (update_widget initial_class "n" "Simple" "Hello {name}").2).
Proof.
  apply (format_string_tuple_length (example_host true) initial_class "n" "Simple"
           "Simple" "Hello {name}" "" [("name", PStr "Alice")] ∅).
  reflexivity.
Defined.

End WidgetFacts.

(** ** FormatString.IS_CHANGED *)

Module IsChangedFacts.
Import RandomChoice IsChanged RandomChoiceFacts.





End IsChangedFacts.

(** ** RandomChoice: inputs, and [IS_CHANGED] *)

Module RandomChoiceMore.
Import RandomChoice RandomChoiceFacts.

(** X14: [random_choice] raises [IndexError] exactly when no keyword argument
    but [seed] is given. *)
Theorem random_choice_no_input (g : generator) (kwargs : dict pyval) (st : rng g) :
  (random_choice g kwargs st).1 = Raise IndexError
  ↔ ∀ k v, (k, v) ∈ kwargs → k = "seed".
Proof.
  split.
  - intros Hr k v Hin. destruct (decide (k = "seed")) as [|Hne]; [done|].
    exfalso.
    assert (inputs kwargs ≠ []) as Hnil.
    { intros Hnil. assert ((k, v) ∈ inputs kwargs) as H.
      { apply list_elem_of_filter. by split. }
      rewrite Hnil in H. by apply elem_of_nil in H. }
    destruct (choice_member g (inputs kwargs) (reseed g kwargs st) Hnil)
      as (item & _ & Hc).
    unfold random_choice in Hr.
    destruct (choice g (inputs kwargs) (reseed g kwargs st)) as [r st'].
    simpl in Hc. subst r. by destruct (markup_error g _).
  - intros Hall. unfold random_choice.
    assert (inputs kwargs = []) as ->.
    { unfold inputs. destruct (filter _ kwargs) as [|[k v] l] eqn:E; [done|].
      assert ((k, v) ∈ filter (λ i, i.1 ≠ "seed") kwargs) as H
        by (rewrite E; by left).
      apply list_elem_of_filter in H as [Hk Hin]. simpl in Hk.
      by specialize (Hall k v Hin). }
    done.
Qed.

Lemma random_choice_no_input_witness :
  (random_choice counter [("seed", PInt 3)] 0%Z).1 = Raise IndexError.
Proof.
  apply (random_choice_no_input counter [("seed", PInt 3)] 0%Z).
  intros k v [[= -> ->]|H%elem_of_nil]%elem_of_cons; done.
Defined.

(** X15: with one keyword argument beside [seed], [random_choice] returns
    its value, whatever the seed and the generator, when the print of the
    value returns. *)
Theorem random_choice_single_input (g : generator) (kwargs : dict pyval)
    (st : rng g) (k : string) (v : pyval) :
  inputs kwargs = [(k, v)] →
  markup_error g ("Chose: " +:+ py_str v +:+ nl) = None →
  (random_choice g kwargs st).1 = Return [v].
Proof.
  intros Hi Hp. unfold random_choice, choice. rewrite Hi. simpl length.
  pose proof (randbelow_range g (reseed g kwargs st) 1 ltac:(done)) as Hr.
  change (Z.of_nat 1) with 1%Z.
  destruct (randbelow g (reseed g kwargs st) 1) as [i st']. simpl in Hr.
  assert (i = 0%Z) as -> by lia. simpl. by rewrite Hp.
Qed.

Lemma random_choice_single_input_witness :
  (random_choice counter [("input1", PStr "a"); ("seed", PInt 0)] 4%Z).1
  = Return [PStr "a"].
Proof.
  apply (random_choice_single_input counter
           [("input1", PStr "a"); ("seed", PInt 0)] 4%Z "input1").
  - reflexivity.
  - reflexivity.
Defined.

(** X16: with a truthy [seed], [IS_CHANGED] returns what the run of the node
    returns after it, and the state it leaves the shared generator in is
    fixed by the keyword arguments. *)
Theorem is_changed_predicts_run (g : generator) (kwargs : dict pyval)
    (st1 st2 : rng g) :
  truthy (seed_arg kwargs) = true →
  IS_CHANGED g kwargs st1 = IS_CHANGED g kwargs st2
  ∧ (random_choice g kwargs (IS_CHANGED g kwargs st1).2).1
    = (IS_CHANGED g kwargs st1).1.
Proof.
  intros Hs. unfold IS_CHANGED, random_choice, reseed. by rewrite Hs.
Qed.

Lemma is_changed_predicts_run_witness :
  IS_CHANGED counter [("input1", PStr "a"); ("input2", PStr "b"); ("seed", PInt 7)] 0%Z
  = IS_CHANGED counter [("input1", PStr "a"); ("input2", PStr "b"); ("seed", PInt 7)] 9%Z
  ∧ (random_choice counter
       [("input1", PStr "a"); ("input2", PStr "b"); ("seed", PInt 7)]
       (IS_CHANGED counter
          [("input1", PStr "a"); ("input2", PStr "b"); ("seed", PInt 7)] 0%Z).2).1
    = (IS_CHANGED counter
         [("input1", PStr "a"); ("input2", PStr "b"); ("seed", PInt 7)] 0%Z).1.
Proof.
  apply (is_changed_predicts_run counter
           [("input1", PStr "a"); ("input2", PStr "b"); ("seed", PInt 7)] 0%Z 9%Z).
  reflexivity.
Defined.

End RandomChoiceMore.

(** ** ModelUnloader *)

Module ModelUnloaderFacts.
Import ModelUnloader.

Lemma bind_return {A B} (m : M A) (f : A → M B) log a log' :
  m log = (Return a, log') → (m ≫= f) log = f a log'.
Proof. intros H. unfold mbind, M_bind. by rewrite H. Qed.

Lemma bind_raise {A B} (m : M A) (f : A → M B) log e log' :
  m log = (Raise e, log') → (m ≫= f) log = (Raise e, log').
Proof. intros H. unfold mbind, M_bind. by rewrite H. Qed.

(** X17: with a [device_type], [get_best_pytorch_device] returns the value of
    the type for the device number 0 and raises [TypeError] for any other
    number; it looks for no device and sets no variable. *)
Theorem explicit_device_number (h : host) (device_type : DEVICE_TYPE)
    (device_number : Z) (log : list event) :
  get_best_pytorch_device h (Some device_type) device_number log
  = (if decide (device_number = 0%Z) then Return (value device_type)
     else Raise (OtherError "TypeError"), log).
Proof.
  unfold get_best_pytorch_device. simpl.
  destruct (Z.eqb_spec device_number 0) as [->|Hne]; simpl.
  - by rewrite sapp_nil_r.
  - by rewrite decide_False.
Qed.

Lemma detect_device h log :
  get_best_pytorch_device h None 0 log
  = (Return (if cuda_is_available h then "cuda:0"
             else if mps_is_available h then "mps" else "cpu"),
     log ++ (if cuda_is_available h then []
             else if mps_is_available h
                  then [Setenv "PYTORCH_ENABLE_MPS_FALLBACK" "1"] else [])).
Proof.
  unfold get_best_pytorch_device.
  destruct (cuda_is_available h); [by rewrite app_nil_r|].
  destruct (mps_is_available h); [done|by rewrite app_nil_r].
Qed.

Lemma host_call_returns h ev log :
  raises h ev = None → host_call h ev log = (Return (), log ++ [ev]).
Proof. intros H. unfold host_call. by rewrite H. Qed.

Lemma rich_print_returns h text log :
  markup_error h text = None → rich_print h text log = (Return (), log).
Proof. intros H. unfold rich_print. by rewrite H. Qed.

(** The request of [clear_memory] with its prints. *)
Lemma request_log h api_url log :
  request_printed h api_url →
  catch
    (rich_print h ("Calling /free API at " +:+ api_url
                   +:+ " to unload models and free memory...");;
     host_call h (Post (api_url +:+ "/free") free_request))
    (λ e, rich_print h ("Failed to call /free API: " +:+ exn_text h e)) log
  = (Return (), log ++ [Post (api_url +:+ "/free") free_request]).
Proof.
  intros [Hp He]. unfold catch.
  erewrite bind_return by (by apply rich_print_returns).
  unfold host_call. destruct (raises h (Post _ _)) as [e|]; [|done].
  by apply rich_print_returns, He.
Qed.

Lemma clear_memory_log (h : host) (api_url : string) (log : list event) :
  raises h Cuda_empty_cache = None → raises h Soft_empty_cache = None →
  request_printed h api_url →
  clear_memory h api_url log = (Return (), log ++ cleared h api_url).
Proof.
  intros Hc Hs Hp. unfold clear_memory, cleared.
  erewrite bind_return by apply detect_device.
  destruct (cuda_is_available h).
  - simpl String.eqb. cbv iota.
    erewrite bind_return by (by apply host_call_returns).
    erewrite bind_return by (by apply host_call_returns).
    rewrite request_log by done. by rewrite <- !app_assoc.
  - destruct (mps_is_available h); simpl String.eqb; cbv iota.
    + erewrite bind_return by reflexivity.
      erewrite bind_return by (by apply host_call_returns).
      rewrite request_log by done. by rewrite <- !app_assoc.
    + erewrite bind_return by reflexivity.
      erewrite bind_return by (by apply host_call_returns).
      rewrite request_log by done. by rewrite <- !app_assoc.
Qed.

(** X18: when emptying the caches returns and the prints around the
    request return, [clear_memory] returns, whatever becomes of the
    request. Its last two calls empty the cache of ComfyUI and post the
    request to [api_url + "/free"]; before them it empties the CUDA cache
    exactly when CUDA is available, and sets PYTORCH_ENABLE_MPS_FALLBACK
    exactly when CUDA is not available and MPS is. *)
Theorem clear_memory_calls (h : host) (api_url : string) (log : list event) :
  raises h Cuda_empty_cache = None → raises h Soft_empty_cache = None →
  request_printed h api_url →
  ∃ events,
    clear_memory h api_url log
    = (Return (),
       log ++ events
           ++ [Soft_empty_cache; Post (api_url +:+ "/free") free_request])
    ∧ (Cuda_empty_cache ∈ events ↔ cuda_is_available h = true)
    ∧ (Setenv "PYTORCH_ENABLE_MPS_FALLBACK" "1" ∈ events
       ↔ cuda_is_available h = false ∧ mps_is_available h = true).
Proof.
  intros Hc Hs Hp. rewrite (clear_memory_log h api_url log Hc Hs Hp).
  unfold cleared.
  destruct (cuda_is_available h), (mps_is_available h); eexists;
    (split; [reflexivity|]);
    rewrite ?list_elem_of_singleton, ?elem_of_nil; split; split;
    try done; try (by intros [? ?]); try (by intros [=]).
Qed.

Lemma clear_memory_calls_witness :
  ∃ events,
    clear_memory cuda_host "http://localhost:8188" []
    = (Return (),
       [] ++ events
          ++ [Soft_empty_cache; Post ("http://localhost:8188" +:+ "/free") free_request])
    ∧ (Cuda_empty_cache ∈ events ↔ cuda_is_available cuda_host = true)
    ∧ (Setenv "PYTORCH_ENABLE_MPS_FALLBACK" "1" ∈ events
       ↔ cuda_is_available cuda_host = false ∧ mps_is_available cuda_host = true).
Proof.
  apply (clear_memory_calls cuda_host "http://localhost:8188" []);
    [reflexivity|reflexivity|].
  split; [reflexivity|]. intros e [= <-]. reflexivity.
Defined.

Lemma for_each_same h model l : ∀ log,
  for_each l (λ m, if same_model m (PObj model)
                   then host_call h (Model_unload m) else mret ()) log
  = for_each (filter (λ m, m = model) l) (unload h) log.
Proof.
  induction l as [|x l IH]; intros log; [done|]. simpl.
  destruct (String.eqb_spec x model) as [->|Hne].
  - rewrite filter_cons_True by done. simpl. unfold mbind, M_bind, unload.
    destruct (host_call h (Model_unload model) log) as [[[]|e] log']; [|done].
    apply IH.
  - rewrite filter_cons_False by done. unfold mbind, M_bind. simpl. apply IH.
Qed.

Lemma for_each_skip {A} (l : list A) : ∀ log,
  for_each l (λ _, mret ()) log = (Return (), log).
Proof.
  induction l as [|x l IH]; intros log; [done|].
  simpl. unfold mbind, M_bind. simpl. apply IH.
Qed.

(** The loop of [unload_model] unloads the selected models in turn. *)
Lemma unload_loop h kwargs log :
  (if truthy (default PNone (dict_get kwargs "model")) then
     for_each (current_loaded_models h)
       (λ m, if same_model m (default PNone (dict_get kwargs "model"))
             then host_call h (Model_unload m) else mret ())
   else for_each (current_loaded_models h) (λ m, host_call h (Model_unload m))) log
  = for_each (selected h kwargs) (unload h) log.
Proof.
  unfold selected. destruct (dict_get kwargs "model") as [v|]; [|done]. simpl.
  destruct v as [|b|z|s|model]; simpl.
  - done.
  - destruct b; [|done]. apply for_each_skip.
  - destruct (negb _); [|done]. apply for_each_skip.
  - destruct (negb _); [|done]. apply for_each_skip.
  - exact (for_each_same h model (current_loaded_models h) log).
Qed.

Lemma unload_all h l : ∀ log,
  (∀ x, x ∈ l → raises h (Model_unload x) = None) →
  for_each l (unload h) log = (Return (), log ++ map Model_unload l).
Proof.
  induction l as [|x l IH]; intros log Hl; simpl.
  - by rewrite app_nil_r.
  - erewrite bind_return.
    2:{ apply host_call_returns, Hl. by left. }
    rewrite IH; [by rewrite <- app_assoc|]. intros y Hy. apply Hl. by right.
Qed.

Lemma unload_stops h before m after e : ∀ log,
  (∀ x, x ∈ before → raises h (Model_unload x) = None) →
  raises h (Model_unload m) = Some e →
  for_each (before ++ m :: after) (unload h) log
  = (Raise e, log ++ map Model_unload (before ++ [m])).
Proof.
  induction before as [|x before IH]; intros log Hb Hm; simpl.
  - erewrite bind_raise; [done|]. unfold unload, host_call. by rewrite Hm.
  - erewrite bind_return.
    2:{ apply host_call_returns, Hb. by left. }
    rewrite IH; [by rewrite <- app_assoc|..|done].
    intros y Hy. apply Hb. by right.
Qed.

Lemma print_unloading_returns h kwargs log :
  model_printed h kwargs →
  print_unloading h (default PNone (dict_get kwargs "model")) log
  = (Return (), log).
Proof.
  intros Hp. unfold print_unloading.
  destruct (dict_get kwargs "model") as [[| | |s|]|] eqn:E; simpl; try done.
  destruct (String.eqb_spec s "") as [->|Hne]; simpl; [done|].
  by apply rich_print_returns, Hp.
Qed.

Lemma print_unloading_selected h kwargs log :
  selected h kwargs ≠ [] →
  print_unloading h (default PNone (dict_get kwargs "model")) log
  = (Return (), log).
Proof.
  unfold print_unloading, selected.
  destruct (dict_get kwargs "model") as [[| | |s|]|]; simpl; try done.
  by destruct (String.eqb_spec s "").
Qed.

(** X19: when every call on the host returns, but perhaps the request,
    and the prints of a [model] that is a string and around the request
    return, [unload_model] returns the tuple of its trigger after these
    calls: it unloads the loaded models equal to [model], or all of them
    without a [model], runs [clear_memory], which asks the server to
    unload all models whatever [model] is, and empties the cache of
    ComfyUI again. *)
Theorem unload_model_calls (h : host) (trigger : pyval) (api_url : string)
    (kwargs : dict pyval) (log : list event) :
  host_returns h → model_printed h kwargs → request_printed h api_url →
  unload_model h trigger api_url kwargs log
  = (Return [trigger],
     log ++ map Model_unload (selected h kwargs) ++ cleared h api_url
         ++ [Soft_empty_cache]).
Proof.
  intros Hh Hm Hp. unfold unload_model. cbv zeta.
  erewrite bind_return by (by apply print_unloading_returns).
  erewrite bind_return.
  2:{ rewrite unload_loop. apply unload_all. intros x _. by apply Hh. }
  erewrite bind_return.
  2:{ apply clear_memory_log; [by apply Hh..|done]. }
  erewrite bind_return.
  2:{ apply host_call_returns. by apply Hh. }
  simpl. by rewrite <- !app_assoc.
Qed.

Lemma unload_model_calls_witness :
  unload_model cuda_host (PObj "<image>") "http://localhost:8188"
    [("model", PObj "<ModelPatcher 2>")] []
  = (Return [PObj "<image>"],
     [] ++ map Model_unload (selected cuda_host [("model", PObj "<ModelPatcher 2>")])
        ++ cleared cuda_host "http://localhost:8188" ++ [Soft_empty_cache]).
Proof.
  apply (unload_model_calls cuda_host (PObj "<image>") "http://localhost:8188"
           [("model", PObj "<ModelPatcher 2>")] []).
  - intros ev Hev. destruct ev; try reflexivity. by destruct (Hev url json).
  - intros s [=].
  - split; [reflexivity|]. intros e [= <-]. reflexivity.
Defined.

(** X20: when unloading one of the selected models raises, [unload_model]
    raises that exception at once: the models after it stay loaded, no
    cache is emptied and no request is sent. *)
Theorem unload_model_aborts (h : host) (trigger : pyval) (api_url : string)
    (kwargs : dict pyval) (log : list event)
    (before after : list string) (m : string) (e : exn) :
  selected h kwargs = before ++ m :: after →
  (∀ x, x ∈ before → raises h (Model_unload x) = None) →
  raises h (Model_unload m) = Some e →
  unload_model h trigger api_url kwargs log
  = (Raise e, log ++ map Model_unload (before ++ [m])).
Proof.
  intros Hsel Hb Hm. unfold unload_model. cbv zeta.
  erewrite bind_return.
  2:{ apply print_unloading_selected. rewrite Hsel. by destruct before. }
  erewrite bind_raise; [done|].
  rewrite unload_loop, Hsel. by apply unload_stops.
Qed.

Lemma unload_model_aborts_witness :
  unload_model failing_host (PObj "<image>") "http://localhost:8188" [] []
  = (Raise (OtherError "RuntimeError"),
     [] ++ map Model_unload (["<ModelPatcher 1>"] ++ ["<ModelPatcher 2>"])).
Proof.
  apply (unload_model_aborts failing_host (PObj "<image>") "http://localhost:8188"
           [] [] ["<ModelPatcher 1>"] [] "<ModelPatcher 2>").
  - reflexivity.
  - intros x ->%list_elem_of_singleton. reflexivity.
  - reflexivity.
Defined.

End ModelUnloaderFacts.
